(** * Memory & Retrieval Engine of bookwith: a shallow embedding

    Modules follow the Python sources under
    [apps/api/src/infrastructure/memory/]:
    - [Retry]          : [retry_decorator.py] ([retry_on_error])
    - [ChatStore]      : [chat_memory_store.py], [memory_retrieval_service.py]
    - [Summarize]      : [summarization_service.py]
    - [PromptBuilder]  : [prompt_builder_service.py], [message_processor.py]
    - [AnnotationStore]: [book_annotation_store.py] *)

From Stdlib Require Import ZArith Lia List Bool Ascii String Sorting.Permutation Sorting.Sorted.
From stdpp Require Import base gmap strings.
Import ListNotations.
Open Scope Z_scope.

(* ------------------------------------------------------------------ *)
(** ** retry_decorator.py *)
Module Retry.

(** Outcome of one call of the wrapped function: a return value or a
    raised exception. *)
Inductive outcome (A E : Type) :=
| Ok (v : A)
| Err (e : E).
Arguments Ok {A E} v.
Arguments Err {A E} e.

(** Observable effects of the wrapper: a call of [func] and a
    [time.sleep(delay)]. *)
Inductive event :=
| Call
| Sleep (d : Z).

Section Wrapper.
Context {A E : Type}.
(** [op k] is what the [k]-th call (0-based) of [func] does. *)
Variable op : nat -> outcome A E.
Variables (max_retries : nat) (initial_delay backoff_factor : Z).

(** The body of [while True:] with the loop variables [retries],
    [delay] and the index [k] of the next call. [fuel] bounds the
    iterations; [None] means it ran out. *)
Fixpoint loop (fuel : nat) (retries : nat) (delay : Z) (k : nat)
  : option (outcome A E * list event) :=
  match fuel with
  | O => None
  | S fuel' =>
      match op k with
      | Ok v => Some (Ok v, [Call])
      | Err e =>
          let retries' := S retries in
          if Nat.ltb max_retries retries' then Some (Err e, [Call])
          else
            match loop fuel' retries' (delay * backoff_factor) (S k) with
            | Some (r, tr) => Some (r, Call :: Sleep delay :: tr)
            | None => None
            end
      end
  end.

(** [wrapper]: [retries = 0], [delay = initial_delay]. The
    loop raises at the latest when [retries] exceeds [max_retries], so
    [max_retries + 1] iterations always suffice. *)
Definition wrapper : option (outcome A E * list event) :=
  loop (S max_retries) 0 initial_delay 0.
End Wrapper.

(** An operation that raises [errs k] on its first [n] calls and then
    returns [v]. *)
Definition fails_then {A E} (n : nat) (errs : nat -> E) (v : A) (k : nat)
  : outcome A E :=
  if Nat.ltb k n then Err (errs k) else Ok v.

Definition count_calls (tr : list event) : nat :=
  length (List.filter (fun ev => match ev with Call => true | _ => false end) tr).

Definition sleeps (tr : list event) : list Z :=
  flat_map (fun ev => match ev with Sleep d => [d] | _ => [] end) tr.

(** The delays [initial_delay * backoff_factor ^ i] for [i < n]. *)
Fixpoint geometric (n : nat) (d b : Z) : list Z :=
  match n with
  | O => []
  | S n' => d :: geometric n' (d * b) b
  end.

End Retry.

(* ------------------------------------------------------------------ *)
(** ** Retry proofs *)
Module RetryProofs.
Import Retry.

Section FailsThen.
Context {A E : Type}.
Variables (n : nat) (errs : nat -> E) (v : A).
Variables (max_retries : nat) (b : Z).

Let op := fails_then n errs v.

Lemma loop_reaches_success (m : nat) : forall fuel retries delay,
  (retries + m = n)%nat -> (n <= max_retries)%nat -> (S m <= fuel)%nat ->
  exists tr, loop op max_retries b fuel retries delay retries = Some (Ok v, tr)
    /\ count_calls tr = S m /\ sleeps tr = geometric m delay b.
Proof.
  induction m as [|m IH]; intros fuel retries delay Hn Hmax Hfuel;
    destruct fuel as [|fuel]; try lia; simpl.
  - unfold op, fails_then. replace (Nat.ltb retries n) with false
      by (symmetry; apply Nat.ltb_ge; lia).
    exists [Call]. auto.
  - unfold op at 1, fails_then. replace (Nat.ltb retries n) with true
      by (symmetry; apply Nat.ltb_lt; lia).
    replace (Nat.ltb max_retries (S retries)) with false
      by (symmetry; apply Nat.ltb_ge; lia).
    destruct (IH fuel (S retries) (delay * b)) as (tr & Htr & Hc & Hs); try lia.
    fold op. rewrite Htr. exists (Call :: Sleep delay :: tr).
    split; [reflexivity|]. unfold count_calls, sleeps in *; simpl.
    rewrite Hc, Hs. auto.
Qed.

Lemma loop_exhausts (m : nat) : forall fuel retries delay,
  (retries + m = max_retries)%nat -> (max_retries < n)%nat -> (S m <= fuel)%nat ->
  exists tr, loop op max_retries b fuel retries delay retries
             = Some (Err (errs max_retries), tr)
    /\ count_calls tr = S m /\ sleeps tr = geometric m delay b.
Proof.
  induction m as [|m IH]; intros fuel retries delay Hn Hmax Hfuel;
    destruct fuel as [|fuel]; try lia; simpl;
    unfold op at 1, fails_then;
    (replace (Nat.ltb retries n) with true by (symmetry; apply Nat.ltb_lt; lia)).
  - replace (Nat.ltb max_retries (S retries)) with true
      by (symmetry; apply Nat.ltb_lt; lia).
    exists [Call]. replace retries with max_retries by lia. auto.
  - replace (Nat.ltb max_retries (S retries)) with false
      by (symmetry; apply Nat.ltb_ge; lia).
    destruct (IH fuel (S retries) (delay * b)) as (tr & Htr & Hc & Hs); try lia.
    fold op. rewrite Htr. exists (Call :: Sleep delay :: tr).
    split; [reflexivity|]. unfold count_calls, sleeps in *; simpl.
    rewrite Hc, Hs. auto.
Qed.
End FailsThen.

(** C3: Retry helper. For an operation that fails [n] times and then
    succeeds: with [max_retries >= n] the wrapper returns the success
    value after [n + 1] calls; with [max_retries < n] it raises the last
    error (that of call [max_retries]) after exactly [max_retries + 1]
    calls. In both cases the sleeps between calls are [initial_delay],
    [initial_delay * backoff_factor], ... (the delay is multiplied by
    [backoff_factor] after each failure). *)
Theorem retry_fails_then_succeeds {A E : Type} (n max_retries : nat)
    (errs : nat -> E) (v : A) (initial_delay backoff_factor : Z) :
  ((n <= max_retries)%nat ->
   exists tr, wrapper (fails_then n errs v) max_retries initial_delay backoff_factor
              = Some (Ok v, tr)
     /\ count_calls tr = S n /\ sleeps tr = geometric n initial_delay backoff_factor)
  /\
  ((max_retries < n)%nat ->
   exists tr, wrapper (fails_then n errs v) max_retries initial_delay backoff_factor
              = Some (Err (errs max_retries), tr)
     /\ count_calls tr = S max_retries
     /\ sleeps tr = geometric max_retries initial_delay backoff_factor).
Proof.
  split; intros H; unfold wrapper.
  - apply loop_reaches_success; lia.
  - apply loop_exhausts; lia.
Qed.

(** Witness for C3: 2 failures with 3 retries succeed; 4 failures with
    3 retries raise error number 3. *)
Lemma retry_fails_then_succeeds_witness :
  (exists tr, wrapper (fails_then 2 (fun k => k) true) 3 1 2 = Some (Ok true, tr)
     /\ count_calls tr = 3%nat /\ sleeps tr = [1; 2])
  /\
  (exists tr, wrapper (fails_then 4 (fun k => k) true) 3 1 2 = Some (Err 3%nat, tr)
     /\ count_calls tr = 4%nat /\ sleeps tr = [1; 2; 4]).
Proof.
  split.
  - apply (proj1 (retry_fails_then_succeeds 2 3 (fun k => k) true 1 2)). lia.
  - apply (proj2 (retry_fails_then_succeeds 4 3 (fun k => k) true 1 2)). lia.
Defined.
End RetryProofs.

(* ------------------------------------------------------------------ *)
(** ** Retry: behaviour on any operation *)
Module RetryExtra.
Import Retry.

Section AnyOp.
Context {A E : Type}.
Variable op : nat -> outcome A E.
Variables (max_retries : nat) (b : Z).

Definition failed (k : nat) : Prop := exists e, op k = Err e.

Lemma loop_spec (fuel : nat) : forall retries delay,
  (retries <= max_retries)%nat -> (max_retries - retries < fuel)%nat ->
  exists r tr, loop op max_retries b fuel retries delay retries = Some (r, tr)
    /\ (length (sleeps tr) + 1 = count_calls tr)%nat
    /\ match r with
       | Ok v => exists k, (retries <= k <= max_retries)%nat /\ op k = Ok v
                 /\ (forall j, (retries <= j < k)%nat -> failed j)
                 /\ count_calls tr = S (k - retries)
       | Err e => op max_retries = Err e
                 /\ (forall j, (retries <= j <= max_retries)%nat -> failed j)
                 /\ count_calls tr = S (max_retries - retries)
       end.
Proof.
  induction fuel as [|fuel IH]; intros retries delay Hr Hf; [lia|]. simpl.
  destruct (op retries) as [v|e] eqn:Hop.
  - exists (Ok v), [Call]. split; [reflexivity|]. split; [reflexivity|].
    exists retries. split; [lia|]. split; [exact Hop|]. split; [intros; lia|].
    unfold count_calls; simpl. f_equal. lia.
  - destruct (Nat.ltb max_retries (S retries)) eqn:Hlt.
    + apply Nat.ltb_lt in Hlt. assert (retries = max_retries) by lia. subst.
      exists (Err e), [Call]. split; [reflexivity|]. split; [reflexivity|].
      split; [exact Hop|]. split.
      * intros j Hj. assert (j = max_retries) by lia. subst. exists e. exact Hop.
      * unfold count_calls; simpl. f_equal. lia.
    + apply Nat.ltb_ge in Hlt.
      destruct (IH (S retries) (delay * b)) as (r & tr & Hl & Hs & Hm); try lia.
      rewrite Hl. exists r, (Call :: Sleep delay :: tr).
      split; [reflexivity|].
      unfold count_calls, sleeps in *; simpl. split; [lia|].
      destruct r as [v|e'].
      * destruct Hm as (k & Hk & Hv & Hbefore & Hc). exists k.
        split; [lia|]. split; [exact Hv|]. split.
        -- intros j Hj. destruct (Nat.eq_dec j retries) as [->|Hne];
             [exists e; exact Hop|apply Hbefore; lia].
        -- rewrite Hc. f_equal. lia.
      * destruct Hm as (Hv & Hall & Hc). split; [exact Hv|]. split.
        -- intros j Hj. destruct (Nat.eq_dec j retries) as [->|Hne];
             [exists e; exact Hop|apply Hall; lia].
        -- rewrite Hc. f_equal. lia.
Qed.

Lemma loop_shape (fuel : nat) : forall retries delay,
  (retries <= max_retries)%nat -> (max_retries - retries < fuel)%nat ->
  exists r tr n, loop op max_retries b fuel retries delay retries = Some (r, tr)
    /\ (retries + n <= max_retries)%nat
    /\ tr = Call :: flat_map (fun di => [Sleep di; Call]) (geometric n delay b).
Proof.
  induction fuel as [|fuel IH]; intros retries delay Hr Hf; [lia|]. simpl.
  destruct (op retries) as [v|e] eqn:Hop.
  - exists (Ok v), [Call], 0%nat. split; [reflexivity|]. split; [lia|reflexivity].
  - destruct (Nat.ltb max_retries (S retries)) eqn:Hlt.
    + exists (Err e), [Call], 0%nat. split; [reflexivity|]. split; [lia|reflexivity].
    + apply Nat.ltb_ge in Hlt.
      destruct (IH (S retries) (delay * b)) as (r & tr & n & Hl & Hn & Htr); try lia.
      rewrite Hl. exists r, (Call :: Sleep delay :: tr), (S n).
      split; [reflexivity|]. split; [lia|]. rewrite Htr. reflexivity.
Qed.

End AnyOp.

(** The wrapper always finishes within its [max_retries + 1] iterations:
    it makes [n + 1] calls for some [n <= max_retries], with one sleep
    between each two consecutive calls and none after the last, the
    delays being [initial_delay * backoff_factor ^ i] for [i < n]. *)
Theorem wrapper_bounded {A E : Type} (op : nat -> outcome A E) max_retries d b :
  exists r tr n, wrapper op max_retries d b = Some (r, tr)
    /\ (n <= max_retries)%nat
    /\ tr = Call :: flat_map (fun di => [Sleep di; Call]) (geometric n d b).
Proof.
  destruct (loop_shape op max_retries b (S max_retries) 0 d) as (r & tr & n & H & Hn & Htr);
    try lia.
  exists r, tr, n. split; [exact H|]. split; [lia|exact Htr].
Qed.

(** The wrapper returns the first success: if it returns [v], call [k]
    (with [k <= max_retries]) returned [v], every earlier call raised, and
    exactly [k + 1] calls were made. If it raises [e], all
    [max_retries + 1] calls raised and [e] is the error of the last one. *)
Theorem wrapper_first_success_or_last_error {A E : Type} (op : nat -> outcome A E)
    max_retries d b r tr :
  wrapper op max_retries d b = Some (r, tr) ->
  match r with
  | Ok v => exists k, (k <= max_retries)%nat /\ op k = Ok v
            /\ (forall j, (j < k)%nat -> failed op j) /\ count_calls tr = S k
  | Err e => op max_retries = Err e
            /\ (forall j, (j <= max_retries)%nat -> failed op j)
            /\ count_calls tr = S max_retries
  end.
Proof.
  intros H. unfold wrapper in H.
  destruct (loop_spec op max_retries b (S max_retries) 0 d) as (r' & tr' & H' & _ & Hm);
    try lia.
  rewrite H' in H. injection H as <- <-.
  destruct r' as [v|e].
  - destruct Hm as (k & Hk & Hv & Hb & Hc). exists k.
    split; [lia|]. split; [exact Hv|]. split; [intros j Hj; apply Hb; lia|].
    rewrite Hc. f_equal. lia.
  - destruct Hm as (Hv & Hall & Hc). split; [exact Hv|]. split; [intros j Hj; apply Hall; lia|].
    rewrite Hc. f_equal. lia.
Qed.

(** Witness: an operation failing once under [retry_on_error(max_retries=2)]. *)
Lemma wrapper_first_success_or_last_error_witness :
  exists k, (k <= 2)%nat /\ fails_then 1 (fun k => k) true k = Ok true
    /\ (forall j, (j < k)%nat -> failed (fails_then 1 (fun k => k) true) j)
    /\ count_calls [Call; Sleep 1; Call] = S k.
Proof.
  apply (wrapper_first_success_or_last_error (fails_then 1 (fun k => k) true) 2 1 2
           (Ok true) [Call; Sleep 1; Call]).
  reflexivity.
Defined.
End RetryExtra.

(* ------------------------------------------------------------------ *)
(** ** chat_memory_store.py, memory_retrieval_service.py *)
Module ChatStore.

(** The properties of a ChatMemory object (the [metadata] dict passed
    to [add_memory]); [created_at] is the timestamp as an ordered
    number, [is_summarized] is absent ([None]) on summary records, whose
    metadata does not set it. *)
Record chat_props := {
  chat_id : string;
  content : string;
  created_at : Z;
  is_summarized : option bool;
  memory_type : string;
  message_id : string;
  sender : string;
  user_id : string;
}.

(** A stored object: its uuid, vector and properties. *)
Record chat_object := {
  uuid : nat;
  vector : list Z;
  props : chat_props;
}.

(** The ChatMemory collection: one partition per tenant (Weaviate
    multi-tenancy, created on first insert), and the source of fresh
    uuids. *)
Record store := {
  tenants : gmap string (list chat_object);
  next_uuid : nat;
}.

Definition TYPE_MESSAGE : string := "message".
Definition TYPE_SUMMARY : string := "summary".

Definition partition (s : store) (t : string) : list chat_object :=
  default [] (tenants s !! t).

(** [collection.with_tenant(user_id).data.insert(properties, vector)]:
    appends a new object to the tenant's partition and returns its uuid. *)
Definition insert (s : store) (t : string) (p : chat_props) (v : list Z)
  : store * nat :=
  let o := {| uuid := next_uuid s; vector := v; props := p |} in
  ({| tenants := <[t := partition s t ++ [o]]> (tenants s);
      next_uuid := S (next_uuid s) |}, next_uuid s).

(** [ChatMemoryStore.add_memory(vector, metadata, user_id)]. *)
Definition add_memory (s : store) (v : list Z) (metadata : chat_props)
    (uid : string) : store * nat :=
  insert s uid metadata v.

(** Stable insertion sort on a key (the result order of a
    [near_vector] query: increasing distance). *)
Fixpoint insert_by {X} (key : X -> Z) (x : X) (l : list X) : list X :=
  match l with
  | [] => [x]
  | y :: l' => if Z.leb (key x) (key y) then x :: l else y :: insert_by key x l'
  end.

Fixpoint sort_by {X} (key : X -> Z) (l : list X) : list X :=
  match l with
  | [] => []
  | x :: l' => insert_by key x (sort_by key l')
  end.

(** A result item: [dict(obj.properties)], [item["id"]] and the
    [distance] of [_additional] (certainty is [1 - distance]). *)
Record result := {
  res_id : nat;
  res_props : chat_props;
  res_distance : Z;
}.

Section Search.
(** The vector distance used by the store's [near_vector] query. *)
Variable dist : list Z -> list Z -> Z.

Definition mem_string (x : string) (l : list string) : bool :=
  existsb (String.eqb x) l.

(** The [where_filter] of [search_chat_memories]. *)
Definition search_filter (uid cid : string) (o : chat_object) : bool :=
  String.eqb (user_id (props o)) uid
  && String.eqb (chat_id (props o)) cid
  && mem_string (memory_type (props o)) [TYPE_MESSAGE; TYPE_SUMMARY].

(** [ChatMemoryStore.search_chat_memories(user_id, chat_id,
    query_vector, limit)]: the query runs on the partition of tenant
    [user_id] only. *)
Definition search_chat_memories (s : store) (uid cid : string)
    (query_vector : list Z) (limit : nat) : list result :=
  let hits := List.filter (search_filter uid cid) (partition s uid) in
  let ranked := sort_by (fun o => dist (vector o) query_vector) hits in
  map (fun o => {| res_id := uuid o; res_props := props o;
                   res_distance := dist (vector o) query_vector |})
      (firstn limit ranked).
End Search.

(** [MemoryRetrievalService.search_relevant_memories]: [encode] is
    [memory_store.encode_text] and [search] is
    [memory_store.search_chat_memories]; [None] stands for a raised
    exception (after the decorators' retries). *)
Definition search_relevant_memories
    (encode : string -> option (list Z))
    (search : string -> string -> list Z -> nat -> option (list result))
    (uid cid query : string) (chat_limit : option nat) : list result :=
  let chat_limit := match chat_limit with None => 3%nat | Some l => l end in
  match encode query with
  | None => []
  | Some query_vector =>
      match search uid cid query_vector chat_limit with
      | None => []
      | Some rs => rs
      end
  end.

(** The store's search as it is called when it does not raise. *)
Definition store_search (dist : list Z -> list Z -> Z) (s : store)
  : string -> string -> list Z -> nat -> option (list result) :=
  fun uid cid qv lim => Some (search_chat_memories dist s uid cid qv lim).

(** Every uuid in the store was handed out before [next_uuid]. *)
Definition store_wf (s : store) : Prop :=
  forall t l o, tenants s !! t = Some l -> In o l -> (uuid o < next_uuid s)%nat.

Definition empty_store : store := {| tenants := ∅; next_uuid := 0 |}.

End ChatStore.

(* ------------------------------------------------------------------ *)
(** ** Chat store proofs *)
Module ChatStoreProofs.
Import ChatStore.

Lemma in_insert_by {X} (key : X -> Z) x y l :
  In y (insert_by key x l) <-> y = x \/ In y l.
Proof.
  induction l as [|z l IH]; simpl.
  - split; intros [H|H]; auto.
  - destruct (Z.leb (key x) (key z)); simpl.
    + split; intros H; intuition congruence.
    + rewrite IH. intuition congruence.
Qed.

Lemma in_sort_by {X} (key : X -> Z) y l : In y (sort_by key l) <-> In y l.
Proof.
  induction l as [|z l IH]; simpl; [tauto|].
  rewrite in_insert_by, IH. intuition.
Qed.

Lemma in_firstn {X} n (x : X) l : In x (firstn n l) -> In x l.
Proof.
  intros H. rewrite <- (firstn_skipn n l). apply in_or_app. now left.
Qed.

Lemma in_search_partition dist s uid cid qv lim r :
  In r (search_chat_memories dist s uid cid qv lim) ->
  exists o, In o (partition s uid) /\ res_id r = uuid o.
Proof.
  unfold search_chat_memories. rewrite in_map_iff.
  intros (o & <- & Ho). exists o. split; [|reflexivity].
  apply in_firstn, in_sort_by in Ho. apply filter_In in Ho. tauto.
Qed.

Lemma partition_add_other s v p t1 t2 :
  t1 <> t2 -> partition (fst (add_memory s v p t1)) t2 = partition s t2.
Proof.
  intros Hne. unfold partition, add_memory, insert; simpl.
  rewrite lookup_insert_ne; auto.
Qed.

(** C1: Tenant isolation. Inserting a record for tenant [t1] leaves
    every search scoped to another tenant [t2] unchanged, whatever the
    conversation id, filters and query vector; in a store whose uuids
    were all handed out by it, the inserted record is never among the
    results of a search scoped to [t2]. *)
Theorem tenant_isolation dist s t1 t2 v p cid qv lim :
  t1 <> t2 ->
  search_chat_memories dist (fst (add_memory s v p t1)) t2 cid qv lim
    = search_chat_memories dist s t2 cid qv lim
  /\ (store_wf s ->
      forall r, In r (search_chat_memories dist (fst (add_memory s v p t1)) t2 cid qv lim) ->
                res_id r <> snd (add_memory s v p t1)).
Proof.
  intros Hne. split.
  - unfold search_chat_memories. rewrite partition_add_other; auto.
  - intros Hwf r Hr. apply in_search_partition in Hr as (o & Ho & ->).
    rewrite partition_add_other in Ho by auto.
    unfold partition in Ho. simpl.
    destruct (tenants s !! t2) as [l|] eqn:Hl; simpl in Ho; [|contradiction].
    specialize (Hwf _ _ _ Hl Ho). lia.
Qed.

Lemma empty_store_wf : store_wf empty_store.
Proof. intros t l o H. simpl in H. rewrite lookup_empty in H. discriminate. Qed.

Definition sample_props (uid : string) : chat_props :=
  {| chat_id := "c1"; content := "hello"; created_at := 1;
     is_summarized := Some false; memory_type := TYPE_MESSAGE;
     message_id := "m1"; sender := "user"; user_id := uid |}.

(** Witness for C1: tenants "alice" and "bob" with identical filters. *)
Lemma tenant_isolation_witness :
  let s := fst (add_memory empty_store [1] (sample_props "bob") "bob") in
  "alice"%string <> "bob"%string /\ store_wf s /\
  search_chat_memories (fun _ _ => 0) (fst (add_memory s [1] (sample_props "alice") "alice"))
    "bob" "c1" [1] 5
  = search_chat_memories (fun _ _ => 0) s "bob" "c1" [1] 5.
Proof.
  intros s.
  assert (Hs : store_wf s).
  { intros t l o H Ho. unfold s in *. simpl in H.
    destruct (decide (t = "bob"%string)) as [->|Hne].
    - rewrite lookup_insert_eq in H. injection H as <-. simpl in Ho.
      destruct Ho as [<-|[]]. simpl. lia.
    - rewrite lookup_insert_ne in H by congruence. rewrite lookup_empty in H. discriminate. }
  refine (conj _ (conj Hs _)); [discriminate|].
  apply (proj1 (tenant_isolation (fun _ _ => 0) s "alice" "bob" [1] (sample_props "alice") "c1" [1] 5
                  ltac:(discriminate))).
Defined.

(** C8: Retrieval degradation. If vectorizing the query raises, or the
    chat-memory search raises, [search_relevant_memories] returns the
    empty list; when both succeed it returns the ranked results of
    [search_chat_memories] on the store, with limit 3 when no limit is
    given. *)
Theorem retrieval_degrades_to_empty dist s encode search uid cid query lim qv :
  (encode query = None -> search_relevant_memories encode search uid cid query lim = [])
  /\ (encode query = Some qv ->
      search uid cid qv (default 3%nat lim) = None ->
      search_relevant_memories encode search uid cid query lim = [])
  /\ (encode query = Some qv ->
      search_relevant_memories encode (store_search dist s) uid cid query None
      = search_chat_memories dist s uid cid qv 3).
Proof.
  unfold search_relevant_memories. split; [|split].
  - intros H. now rewrite H.
  - intros H Hs. rewrite H. destruct lim; simpl in Hs; now rewrite Hs.
  - intros H. now rewrite H.
Qed.

(** Witness for C8: an encoder that raises, a search that raises, and a
    successful search on a store with one message of tenant "bob". *)
Lemma retrieval_degrades_to_empty_witness :
  let s := fst (add_memory empty_store [1] (sample_props "bob") "bob") in
  search_relevant_memories (fun _ => None) (store_search (fun _ _ => 0) s)
    "bob" "c1" "hi" None = []
  /\ search_relevant_memories (fun _ => Some [1]) (fun _ _ _ _ => None)
    "bob" "c1" "hi" None = []
  /\ search_relevant_memories (fun _ => Some [1]) (store_search (fun _ _ => 0) s)
    "bob" "c1" "hi" None
     = search_chat_memories (fun _ _ => 0) s "bob" "c1" [1] 3.
Proof.
  intros s. refine (conj _ (conj _ _)).
  - apply (proj1 (retrieval_degrades_to_empty (fun _ _ => 0) s (fun _ => None)
                    (store_search (fun _ _ => 0) s) "bob" "c1" "hi" None [1])).
    reflexivity.
  - apply (proj1 (proj2 (retrieval_degrades_to_empty (fun _ _ => 0) s (fun _ => Some [1])
                    (fun _ _ _ _ => None) "bob" "c1" "hi" None [1]))); reflexivity.
  - apply (proj2 (proj2 (retrieval_degrades_to_empty (fun _ _ => 0) s (fun _ => Some [1])
                    (fun _ _ _ _ => None) "bob" "c1" "hi" None [1]))); reflexivity.
Defined.

Example search_sample :
  map res_id (search_chat_memories (fun v q => Z.abs (hd 0 v - hd 0 q))
    (fst (add_memory (fst (add_memory empty_store [5] (sample_props "bob") "bob"))
                     [2] (sample_props "bob") "bob")) "bob" "c1" [1] 3) = [1%nat; 0%nat].
Proof. reflexivity. Qed.
End ChatStoreProofs.

(* ------------------------------------------------------------------ *)
(** ** summarization_service.py *)
Module Summarize.
Import ChatStore.

(** Calls the pass makes on its collaborators, in order. *)
Inductive sevent :=
| Fetch                 (* get_unsummarized_messages *)
| Generate              (* _get_llm_summary *)
| Encode                (* memory_store.encode_text *)
| Insert (id : nat)     (* memory_store.add_memory of the summary *)
| Mark (ids : list string). (* mark_messages_as_summarized *)

(** What the collaborators do on this run: whether the fetch and the
    insert succeed (after their retries), what the model returns
    ([_get_llm_summary] returns [None] when the chain raises), what the
    embedding returns, and the clock. [mark_fail a] is where attempt [a]
    of [mark_messages_as_summarized] raises: [Some 0] at the query that
    fetches the objects, [Some k] ([k >= 1]) at the [k]-th
    [data.update], [None] nowhere. *)
Record env := {
  fetch_ok : bool;
  llm : string -> option string;
  encode : string -> option (list Z);
  insert_ok : bool;
  mark_fail : nat -> option nat;
  now_ts : Z;
  now_str : string;
}.

(** For some attempt of [mark_messages_as_summarized] within its
    [max_retries = 2] retries, [mark_fail] names no failing store
    operation at all (so that attempt returns, however many objects it
    fetches). *)
Definition mark_ok (e : env) : bool :=
  existsb (fun a => match mark_fail e a with None => true | Some _ => false end) [0; 1; 2]%nat.

(** A state and exception monad over the ChatMemory store that records
    the calls made. *)
Inductive res (A : Type) := Ret (a : A) | Raise.
Arguments Ret {A} a.
Arguments Raise {A}.

Definition M (A : Type) := store -> res A * store * list sevent.

Definition ret {A} (a : A) : M A := fun s => (Ret a, s, []).
Definition raise {A} : M A := fun s => (Raise, s, []).
Definition emit (ev : sevent) : M unit := fun s => (Ret tt, s, [ev]).
Definition get_store : M store := fun s => (Ret s, s, []).
Definition put_store (s' : store) : M unit := fun _ => (Ret tt, s', []).
Definition bind {A B} (m : M A) (k : A -> M B) : M B :=
  fun s => match m s with
           | (Ret a, s1, t1) => let '(r, s2, t2) := k a s1 in (r, s2, t1 ++ t2)
           | (Raise, s1, t1) => (Raise, s1, t1)
           end.

Notation "x <-- m ;; k" := (bind m (fun x => k))
  (at level 100, m at level 99, right associativity).
Notation "m ;;; k" := (bind m (fun _ => k))
  (at level 100, right associativity).

Definition memory_summarize_threshold : Z := 20.

(** The [where_filter] of [get_unsummarized_messages]. *)
Definition unsummarized_filter (uid cid : string) (o : chat_object) : bool :=
  String.eqb (user_id (props o)) uid
  && String.eqb (chat_id (props o)) cid
  && String.eqb (memory_type (props o)) TYPE_MESSAGE
  && match is_summarized (props o) with Some false => true | _ => false end.

(** The objects [get_unsummarized_messages] returns on a store: sorted
    by [created_at] ascending, then limited to [max_count]. *)
Definition unsummarized (s : store) (uid cid : string) (max_count : nat)
  : list chat_object :=
  firstn max_count
    (sort_by (fun o => created_at (props o))
       (List.filter (unsummarized_filter uid cid) (partition s uid))).

Definition get_unsummarized_messages (e : env) (uid cid : string)
    (max_count : nat) : M (list chat_object) :=
  emit Fetch ;;;
  if fetch_ok e then (s <-- get_store ;; ret (unsummarized s uid cid max_count))
  else raise.

(** The objects [mark_messages_as_summarized] fetches: its filter, with
    limit [len(message_ids) + 10]. *)
Definition mark_targets (s : store) (uid cid : string) (ids : list string)
  : list nat :=
  map uuid (firstn (length ids + 10)
    (List.filter (fun o =>
        String.eqb (user_id (props o)) uid
        && String.eqb (chat_id (props o)) cid
        && String.eqb (memory_type (props o)) TYPE_MESSAGE
        && mem_string (message_id (props o)) ids) (partition s uid))).

Definition set_summarized (targets : list nat) (o : chat_object) : chat_object :=
  if existsb (Nat.eqb (uuid o)) targets then
    {| uuid := uuid o; vector := vector o;
       props := {| chat_id := chat_id (props o); content := content (props o);
                   created_at := created_at (props o); is_summarized := Some true;
                   memory_type := memory_type (props o);
                   message_id := message_id (props o); sender := sender (props o);
                   user_id := user_id (props o) |} |}
  else o.

(** [@retry_on_error(max_retries)] around a method body: [body a] is
    attempt [a]; after an exception the body runs again, until the
    attempt numbered [max_retries] raises too, and the exception then
    reaches the caller. The store keeps what each attempt wrote; the
    sleeps and log lines are left out of the trace. *)
Fixpoint retry_loop {A} (max_retries : nat) (body : nat -> M A) (fuel retries : nat) : M A :=
  match fuel with
  | O => raise
  | S fuel' => fun s =>
      match body retries s with
      | (Ret a, s1, t1) => (Ret a, s1, t1)
      | (Raise, s1, t1) =>
          if Nat.ltb max_retries (S retries) then (Raise, s1, t1)
          else let '(r, s2, t2) := retry_loop max_retries body fuel' (S retries) s1 in
               (r, s2, t1 ++ t2)
      end
  end.

Definition retry_on_error {A} (max_retries : nat) (body : nat -> M A) : M A :=
  retry_loop max_retries body (S max_retries) 0.

(** Store operation number [k] of attempt [a]: raises where [mark_fail]
    says. *)
Definition mark_op (e : env) (a k : nat) : M unit :=
  match mark_fail e a with
  | Some j => if Nat.eqb j k then raise else ret tt
  | None => ret tt
  end.

(** [collection_with_tenant.data.update(uuid=id, properties={"is_summarized": True})]. *)
Definition update_flag (uid : string) (id : nat) : M unit :=
  s <-- get_store ;;
  put_store {| tenants := <[uid := map (set_summarized [id]) (partition s uid)]> (tenants s);
               next_uuid := next_uuid s |}.

(** [for obj in response.objects: ...data.update(...)]; the update of
    the [i]-th object (0-based) is store operation [k + i]. *)
Fixpoint update_objects (e : env) (a : nat) (uid : string) (k : nat) (targets : list nat)
  : M unit :=
  match targets with
  | [] => ret tt
  | id :: rest => mark_op e a k ;;; update_flag uid id ;;; update_objects e a uid (S k) rest
  end.

(** One attempt [a] of the body of
    [ChatMemoryStore.mark_messages_as_summarized]: returns at once on an
    empty id list; otherwise fetches the objects (operation 0) and
    updates them one by one (operations 1, 2, ...). An exception leaves
    the updates already made. *)
Definition mark_attempt (e : env) (a : nat) (uid cid : string) (ids : list string) : M unit :=
  match ids with
  | [] => ret tt
  | _ =>
      emit (Mark ids) ;;;
      s <-- get_store ;;
      mark_op e a 0 ;;;
      update_objects e a uid 1 (mark_targets s uid cid ids)
  end.

(** [@retry_on_error(max_retries=2)] [mark_messages_as_summarized]. *)
Definition mark_messages_as_summarized (e : env) (uid cid : string)
    (ids : list string) : M unit :=
  retry_on_error 2 (fun a => mark_attempt e a uid cid ids).

(** Modelled from the spec: [VectorCrudService.add_memory] (its module
    [vector_crud_service.py] is not among the sources). Section 4.3:
    [insert(vector, properties) -> recordId] into the tenant's partition
    of the named collection, failing if the collection is unreachable
    after retries. *)
Definition crud_add_memory (e : env) (v : list Z) (metadata : chat_props)
    (uid : string) : M nat :=
  s <-- get_store ;;
  if insert_ok e then
    let '(s', id) := add_memory s v metadata uid in
    put_store s' ;;; emit (Insert id) ;;; ret id
  else raise.

Definition embed (e : env) (text : string) : M (list Z) :=
  emit Encode ;;;
  match encode e text with Some v => ret v | None => raise end.

(** [_save_summary_to_vector_store]. *)
Definition save_summary_to_vector_store (e : env) (summary cid uid : string)
  : M unit :=
  v <-- embed e summary ;;
  let summary_id := ("summary_" ++ cid ++ "_" ++ now_str e)%string in
  let metadata := {| chat_id := cid; content := summary; created_at := now_ts e;
                     is_summarized := None; memory_type := TYPE_SUMMARY;
                     message_id := summary_id; sender := "system"; user_id := uid |} in
  crud_add_memory e v metadata uid ;;; ret tt.

(** [_get_llm_summary]: never raises (the chain's errors give [None]). *)
Definition get_llm_summary (e : env) (text : string) : M (option string) :=
  emit Generate ;;; ret (llm e text).

Definition convert_sender (sender : string) : string :=
  if String.eqb sender "user" then "User"
  else if String.eqb sender "assistant" then "AI"
  else "システム".

Definition message_text (o : chat_object) : string :=
  (convert_sender (sender (props o)) ++ ": " ++ content (props o))%string.

Definition collect_ids (msgs : list chat_object) : list string :=
  List.filter (fun id => negb (String.eqb id "")) (map (fun o => message_id (props o)) msgs).

(** The body of the [try] block of [_summarize_and_vectorize_background]. *)
Definition summarize_body (e : env) (cid uid : string) : M unit :=
  unsummarized_messages <--
    get_unsummarized_messages e uid cid (Z.to_nat memory_summarize_threshold) ;;
  if Z.ltb (Z.of_nat (length unsummarized_messages)) (memory_summarize_threshold / 2)
  then ret tt
  else
    let msgs := sort_by (fun o => created_at (props o)) unsummarized_messages in
    let message_texts := map message_text msgs in
    let message_ids := collect_ids msgs in
    match message_texts with
    | [] => ret tt
    | _ =>
        let combined_text := String.concat (String.String "010"%char "") message_texts in
        summary <-- get_llm_summary e combined_text ;;
        match summary with
        | None | Some EmptyString => ret tt
        | Some sm =>
            save_summary_to_vector_store e sm cid uid ;;;
            match message_ids with
            | [] => ret tt
            | _ => mark_messages_as_summarized e uid cid message_ids
            end
        end
    end.

(** [_summarize_and_vectorize_background]: any exception is caught and
    logged; the store keeps whatever was written before it. *)
Definition summarize_and_vectorize_background (e : env) (cid uid : string)
    (s : store) : store * list sevent :=
  let '(_, s', tr) := summarize_body e cid uid s in (s', tr).

(** [SummarizationService.summarize_chat]. *)
Definition summarize_chat (e : env) (cid uid : string) (message_count : Z)
    (s : store) : store * list sevent :=
  if Z.ltb 0 message_count
     && Z.eqb (Z.modulo message_count memory_summarize_threshold) 0
  then summarize_and_vectorize_background e cid uid s
  else (s, []).

End Summarize.

(* ------------------------------------------------------------------ *)
(** ** Summarization proofs *)
Module SummarizeProofs.
Import ChatStore Summarize.

(** Sample data: a tenant "u" whose conversation "c" holds [n] message
    records with creation times 1..n. *)
Definition msg_props (uid cid : string) (i : nat) : chat_props :=
  {| chat_id := cid; content := "hi"; created_at := Z.of_nat i;
     is_summarized := Some false; memory_type := TYPE_MESSAGE;
     message_id := String.String (ascii_of_nat (65 + i)) "";
     sender := if Nat.even i then "user" else "assistant"; user_id := uid |}.

Fixpoint add_messages (n : nat) (s : store) : store :=
  match n with
  | O => s
  | S n' => let s' := add_messages n' s in
            fst (add_memory s' [Z.of_nat n] (msg_props "u" "c" n) "u")
  end.

Definition env_ok : env :=
  {| fetch_ok := true; llm := fun _ => Some "summary text"%string;
     encode := fun _ => Some [0]; insert_ok := true; mark_fail := fun _ => None;
     now_ts := 100; now_str := "T" |}.

Definition marked_count (s : store) : nat :=
  length (List.filter (fun o => match is_summarized (props o) with
                                | Some true => true | _ => false end)
            (partition s "u")).


Lemma trace_bind {A B} (m : M A) (k : A -> M B) s :
  snd (bind m k s)
  = snd (m s) ++ match fst (fst (m s)) with
                 | Ret a => snd (k a (snd (fst (m s))))
                 | Raise => []
                 end.
Proof.
  unfold bind. destruct (m s) as [[[a|] s1] t1]; simpl.
  - destruct (k a s1) as [[r s2] t2]. reflexivity.
  - now rewrite app_nil_r.
Qed.

Lemma mark_op_trace e a k s : snd (mark_op e a k s) = [].
Proof.
  unfold mark_op, ret, raise. destruct (mark_fail e a) as [j|]; [|reflexivity].
  destruct (Nat.eqb j k); reflexivity.
Qed.

Lemma update_objects_trace e a uid targets : forall k s,
  snd (update_objects e a uid k targets s) = [].
Proof.
  induction targets as [|id rest IH]; intros k s; [reflexivity|]. simpl.
  rewrite trace_bind, mark_op_trace. simpl.
  destruct (fst (fst (mark_op e a k s))); [|reflexivity].
  rewrite trace_bind. simpl. apply IH.
Qed.

Lemma mark_attempt_trace e a uid cid ids s :
  ids <> [] -> snd (mark_attempt e a uid cid ids s) = [Mark ids].
Proof.
  intros Hne. unfold mark_attempt. destruct ids as [|i ids]; [contradiction|].
  rewrite trace_bind. simpl. rewrite trace_bind. simpl.
  rewrite trace_bind, mark_op_trace. simpl.
  destruct (fst (fst (mark_op e a 0 s))); [|reflexivity].
  now rewrite update_objects_trace.
Qed.

Lemma retry_loop_trace {A} mr (body : nat -> M A) ev :
  (forall a s, snd (body a s) = [ev]) ->
  forall fuel retries s, exists n, (n <= fuel)%nat /\ (fuel <> 0 -> n <> 0)%nat
    /\ snd (retry_loop mr body fuel retries s) = repeat ev n.
Proof.
  intros Hb. induction fuel as [|fuel IH]; intros retries s.
  - exists 0%nat. split; [lia|]. split; [intros H; contradiction|reflexivity].
  - simpl. specialize (Hb retries s).
    destruct (body retries s) as [[[a|] s1] t1]; simpl in Hb; subst t1.
    + exists 1%nat. split; [lia|]. split; [lia|reflexivity].
    + destruct (Nat.ltb mr (S retries)).
      * exists 1%nat. split; [lia|]. split; [lia|reflexivity].
      * destruct (IH (S retries) s1) as (n & Hn & _ & Ht).
        destruct (retry_loop mr body fuel (S retries) s1) as [[r s2] t2]. simpl in Ht |- *.
        subst t2. exists (S n). split; [lia|]. split; [lia|reflexivity].
Qed.

(** On a non-empty id list, [mark_messages_as_summarized] makes one to
    three attempts, each one call [Mark ids]. *)
Lemma mark_trace e uid cid ids s :
  ids <> [] -> exists n, (n <= 2)%nat
    /\ snd (mark_messages_as_summarized e uid cid ids s) = repeat (Mark ids) (S n).
Proof.
  intros Hne. unfold mark_messages_as_summarized, retry_on_error.
  destruct (retry_loop_trace 2 (fun a => mark_attempt e a uid cid ids) (Mark ids)
              (fun a s => mark_attempt_trace e a uid cid ids s Hne) 3 0 s) as (n & Hn & Hz & Ht).
  destruct n as [|n]; [lia|]. exists n. split; [lia|exact Ht].
Qed.

Definition canonical (id : nat) : list sevent := [Fetch; Generate; Encode; Insert id].

Lemma body_shape e cid uid s :
  exists id ids n m, (1 <= n)%nat /\ (m <> 0 -> n = 4)%nat
    /\ snd (summarize_body e cid uid s) = firstn n (canonical id) ++ repeat (Mark ids) m.
Proof.
  unfold summarize_body, get_unsummarized_messages, get_llm_summary,
    save_summary_to_vector_store, embed, crud_add_memory,
    bind, emit, ret, raise, get_store, put_store.
  destruct (fetch_ok e); [|exists 0%nat, [], 1%nat, 0%nat; split; [lia|split; [lia|reflexivity]]].
  simpl.
  destruct (Z.ltb _ _); [exists 0%nat, [], 1%nat, 0%nat; split; [lia|split; [lia|reflexivity]]|].
  destruct (map message_text _); [exists 0%nat, [], 1%nat, 0%nat; split; [lia|split; [lia|reflexivity]]|].
  simpl.
  destruct (llm e _) as [[|c sm]|];
    [exists 0%nat, [], 2%nat, 0%nat; split; [lia|split; [lia|reflexivity]]| |
     exists 0%nat, [], 2%nat, 0%nat; split; [lia|split; [lia|reflexivity]]].
  simpl. destruct (encode e _);
    [|exists 0%nat, [], 3%nat, 0%nat; split; [lia|split; [lia|reflexivity]]].
  simpl. destruct (insert_ok e);
    [|exists 0%nat, [], 3%nat, 0%nat; split; [lia|split; [lia|reflexivity]]].
  simpl. destruct (collect_ids _) as [|i ids];
    [exists (next_uuid s), [], 4%nat, 0%nat; split; [lia|split; [lia|reflexivity]]|].
  match goal with
  | |- context [mark_messages_as_summarized ?e ?u ?c ?l ?st] =>
      destruct (mark_trace e u c l st ltac:(discriminate)) as (n & _ & Ht);
      destruct (mark_messages_as_summarized e u c l st) as [[r s2] t2]
  end.
  simpl in Ht |- *. subst t2.
  exists (next_uuid s), (i :: ids), 4%nat, (S n). split; [lia|split; [lia|reflexivity]].
Qed.

Lemma prefix_before {X} (l1 l2 pre post : list X) (x : X) :
  l1 ++ l2 = pre ++ x :: post -> ~ In x l1 -> forall y, In y l1 -> In y pre.
Proof.
  revert pre. induction l1 as [|z l1 IH]; intros pre H Hx y Hy; [destruct Hy|].
  destruct pre as [|w pre]; simpl in H; injection H as Hz H.
  - subst z. exfalso. apply Hx. now left.
  - subst w. destruct Hy as [<-|Hy]; [now left|right].
    apply (IH pre H); [intros Hin; apply Hx; now right|exact Hy].
Qed.

Lemma background_starts_with_fetch e cid uid s :
  exists t, snd (summarize_and_vectorize_background e cid uid s) = Fetch :: t.
Proof.
  destruct (body_shape e cid uid s) as (id & ids & n & m & Hn & _ & Hs).
  unfold summarize_and_vectorize_background.
  destruct (summarize_body e cid uid s) as [[r s'] tr]. simpl in Hs |- *. subst.
  destruct n as [|n]; [lia|]. simpl. eauto.
Qed.

Definition summary_missing (o : option string) : Prop :=
  o = None \/ o = Some ""%string.

Lemma body_store_unchanged e cid uid s :
  fetch_ok e = false
  \/ (forall t, summary_missing (llm e t))
  \/ (forall t, encode e t = None)
  \/ insert_ok e = false ->
  fst (summarize_and_vectorize_background e cid uid s) = s.
Proof.
  intros H. unfold summarize_and_vectorize_background.
  unfold summarize_body, get_unsummarized_messages, get_llm_summary,
    save_summary_to_vector_store, embed, crud_add_memory,
    mark_messages_as_summarized, bind, emit, ret, raise, get_store, put_store.
  destruct (fetch_ok e) eqn:Hf; [|reflexivity].
  simpl.
  destruct (Z.ltb _ _); [reflexivity|].
  destruct (map message_text _); [reflexivity|].
  simpl.
  destruct (llm e _) as [[|c sm]|] eqn:Hl; [reflexivity| |reflexivity].
  simpl. destruct (encode e _) eqn:He; [|reflexivity].
  simpl. destruct (insert_ok e) eqn:Hi; [|reflexivity].
  exfalso. destruct H as [H|[H|[H|H]]]; try congruence.
  - match type of Hl with llm e ?t = _ => destruct (H t) as [H'|H'] end;
      congruence.
Qed.

Lemma canonical_mark_after_insert id ids n m pre x post :
  (m <> 0 -> n = 4)%nat ->
  firstn n (canonical id) ++ repeat (Mark ids) m = pre ++ Mark x :: post -> In (Insert id) pre.
Proof.
  intros Hm H.
  assert (Hno : ~ In (Mark x) (firstn n (canonical id))).
  { intros Hin. apply ChatStoreProofs.in_firstn in Hin. unfold canonical in Hin. simpl in Hin.
    intuition discriminate. }
  destruct m as [|m].
  - rewrite app_nil_r in H. exfalso. apply Hno. rewrite H. apply in_or_app. right. now left.
  - assert (n = 4)%nat as -> by (apply Hm; lia).
    apply (prefix_before _ _ _ _ _ H Hno). simpl. tauto.
Qed.

(** C6: Summarization write ordering. In every run of the pass, a
    [Mark] call (marking source messages summarized) is preceded by the
    [Insert] of the summary record; and when fetching fails, the model
    produces no summary, vectorization fails or the summary insert fails,
    the store is left exactly as it was, so no message is marked and the
    backlog is intact. *)
Theorem summary_inserted_before_mark e cid uid s :
  (forall pre ids post,
     snd (summarize_and_vectorize_background e cid uid s) = pre ++ Mark ids :: post ->
     exists id, In (Insert id) pre)
  /\ (fetch_ok e = false
      \/ (forall t, summary_missing (llm e t))
      \/ (forall t, encode e t = None)
      \/ insert_ok e = false ->
      fst (summarize_and_vectorize_background e cid uid s) = s).
Proof.
  split.
  - intros pre ids post H. destruct (body_shape e cid uid s) as (id & ids' & n & m & _ & Hm & Hs).
    unfold summarize_and_vectorize_background in H.
    destruct (summarize_body e cid uid s) as [[r s'] tr]. simpl in Hs, H. subst.
    exists id. eapply canonical_mark_after_insert; eauto.
  - apply body_store_unchanged.
Qed.

(** Witness for C6: a run that marks (all collaborators succeed) and a
    run whose summary insert fails. *)
Lemma summary_inserted_before_mark_witness :
  let s := add_messages 12 empty_store in
  let e_fail := {| fetch_ok := true; llm := fun _ => Some "summary text"%string;
                   encode := fun _ => Some [0]; insert_ok := false; mark_fail := fun _ => None;
                   now_ts := 100; now_str := "T" |} in
  (exists id, In (Insert id) [Fetch; Generate; Encode; Insert 12])
  /\ fst (summarize_and_vectorize_background e_fail "c" "u" s) = s.
Proof.
  intros s e_fail. split.
  - apply (proj1 (summary_inserted_before_mark env_ok "c" "u" s)
             [Fetch; Generate; Encode; Insert 12]
             (map (fun i => String.String (ascii_of_nat (65 + i)) "") (seq 1 12)) []).
    vm_compute. reflexivity.
  - apply (proj2 (summary_inserted_before_mark e_fail "c" "u" s)).
    right; right; right. reflexivity.
Defined.

(** C7: Minimum-batch abort. When the fetch succeeds and returns fewer
    than [threshold / 2] (10) unsummarized message records for the
    conversation, the pass stops after the fetch: no summary is inserted,
    nothing is marked, the store is unchanged. *)
Theorem min_batch_abort e cid uid s :
  fetch_ok e = true ->
  (length (unsummarized s uid cid (Z.to_nat memory_summarize_threshold))
     < Z.to_nat (memory_summarize_threshold / 2))%nat ->
  summarize_and_vectorize_background e cid uid s = (s, [Fetch]).
Proof.
  intros Hf Hlt.
  unfold summarize_and_vectorize_background, summarize_body,
    get_unsummarized_messages, bind, emit, ret, get_store.
  rewrite Hf. simpl.
  replace (Z.ltb _ _) with true; [reflexivity|].
  symmetry. apply Z.ltb_lt. simpl in Hlt |- *. lia.
Qed.

(** Witness for C7: nine messages in the backlog. *)
Lemma min_batch_abort_witness :
  summarize_and_vectorize_background env_ok "c" "u" (add_messages 9 empty_store)
  = (add_messages 9 empty_store, [Fetch]).
Proof.
  apply min_batch_abort; [reflexivity|]. vm_compute. lia.
Defined.

(** C4 (amended): Summarization trigger. [summarize_chat] starts a pass
    (whose first call is the fetch of the backlog) exactly when
    [message_count > 0] and [message_count mod 20 = 0]; for every other
    count it does no work and leaves the store unchanged. *)
Theorem summarize_chat_trigger e cid uid (message_count : Z) s :
  (snd (summarize_chat e cid uid message_count s) <> []
     <-> 0 < message_count /\ message_count mod memory_summarize_threshold = 0)
  /\ (~ (0 < message_count /\ message_count mod memory_summarize_threshold = 0) ->
      summarize_chat e cid uid message_count s = (s, [])).
Proof.
  unfold summarize_chat.
  destruct (Z.ltb 0 message_count) eqn:H0;
    destruct (Z.eqb (message_count mod memory_summarize_threshold) 0) eqn:H1;
    rewrite ?Z.ltb_lt, ?Z.ltb_ge, ?Z.eqb_eq, ?Z.eqb_neq in *; simpl.
  - destruct (background_starts_with_fetch e cid uid s) as (t & ->).
    split; [split; [intros _; auto|discriminate]|tauto].
  - split; [split; [tauto|intros []; contradiction]|auto].
  - split; [split; [tauto|intros []; lia]|auto].
  - split; [split; [tauto|intros []; lia]|auto].
Qed.

(** Witness for C4: 20 messages start a pass, 21 do not. *)
Lemma summarize_chat_trigger_witness :
  snd (summarize_chat env_ok "c" "u" 20 (add_messages 12 empty_store)) <> []
  /\ summarize_chat env_ok "c" "u" 21 (add_messages 12 empty_store)
     = (add_messages 12 empty_store, []).
Proof.
  split.
  - apply (proj1 (summarize_chat_trigger env_ok "c" "u" 20 (add_messages 12 empty_store))).
    split; reflexivity.
  - apply (proj2 (summarize_chat_trigger env_ok "c" "u" 21 (add_messages 12 empty_store))).
    intros [_ H]. discriminate.
Defined.

(** C4 as stated fails at [message_count = 0]: [0 mod 20 = 0], yet the
    [message_count > 0] guard starts no pass. *)
Lemma summarize_chat_zero_counterexample :
  ~ (forall message_count : Z,
       snd (summarize_chat env_ok "c" "u" message_count (add_messages 12 empty_store)) <> []
       <-> message_count mod memory_summarize_threshold = 0).
Proof.
  intros H. apply (proj2 (H 0)); reflexivity.
Qed.
End SummarizeProofs.

(* ------------------------------------------------------------------ *)
(** ** Chat-memory store: queries and updates *)
Module StoreExtra.
Import ChatStore Summarize ChatStoreProofs.

Section SortLemmas.
Context {X : Type}.
Variable key : X -> Z.
Let R := fun a b => key a <= key b.

Lemma hdrel_insert_by y x l :
  HdRel R y l -> key y <= key x -> HdRel R y (insert_by key x l).
Proof.
  intros H Hle. destruct l as [|z l]; simpl.
  - constructor. exact Hle.
  - destruct (Z.leb (key x) (key z)); constructor; [exact Hle|].
    inversion H; assumption.
Qed.

Lemma insert_by_sorted x l : Sorted R l -> Sorted R (insert_by key x l).
Proof.
  induction l as [|y l IH]; simpl; intros H.
  - constructor; constructor.
  - destruct (Z.leb_spec (key x) (key y)) as [Hle|Hgt].
    + constructor; [exact H|]. constructor. exact Hle.
    + apply Sorted_inv in H as [Hs Hhd]. constructor; [apply IH; exact Hs|].
      apply hdrel_insert_by; [exact Hhd|unfold R; lia].
Qed.

Lemma length_insert_by x l : length (insert_by key x l) = S (length l).
Proof.
  induction l as [|y l IH]; simpl; [reflexivity|].
  destruct (Z.leb _ _); simpl; [reflexivity|now rewrite IH].
Qed.

Lemma length_sort_by l : length (sort_by key l) = length l.
Proof. induction l as [|x l IH]; simpl; [reflexivity|now rewrite length_insert_by, IH]. Qed.

Lemma sort_by_sorted l : Sorted R (sort_by key l).
Proof.
  induction l as [|x l IH]; simpl; [constructor|]. apply insert_by_sorted, IH.
Qed.
End SortLemmas.

Lemma sorted_firstn {X} (R : X -> X -> Prop) n l : Sorted R l -> Sorted R (firstn n l).
Proof.
  revert n. induction l as [|x l IH]; intros n H; destruct n as [|n]; simpl;
    [constructor|constructor|constructor|].
  apply Sorted_inv in H as [Hs Hhd]. constructor; [apply IH; exact Hs|].
  destruct l as [|y l]; destruct n; simpl; constructor. now inversion Hhd.
Qed.

Lemma sorted_map {X Y} (R : Y -> Y -> Prop) (f : X -> Y) l :
  Sorted (fun a b => R (f a) (f b)) l -> Sorted R (map f l).
Proof.
  induction 1 as [|x l Hs IH Hhd]; simpl; constructor; [exact IH|].
  destruct Hhd; simpl; constructor; assumption.
Qed.

(** [search_chat_memories] returns at most [limit] results, ranked by
    increasing distance, and each result belongs to the queried tenant's
    conversation and is a [message] or a [summary]. *)
Theorem search_chat_memories_results dist s uid cid qv limit :
  let rs := search_chat_memories dist s uid cid qv limit in
  (length rs <= limit)%nat
  /\ Sorted Z.le (map res_distance rs)
  /\ (forall r, In r rs ->
        user_id (res_props r) = uid /\ chat_id (res_props r) = cid
        /\ (memory_type (res_props r) = TYPE_MESSAGE
            \/ memory_type (res_props r) = TYPE_SUMMARY)).
Proof.
  unfold search_chat_memories. split; [|split].
  - rewrite length_map, length_firstn. lia.
  - rewrite map_map. simpl. apply sorted_map, sorted_firstn, sort_by_sorted.
  - intros r Hr. apply in_map_iff in Hr as (o & <- & Ho). simpl.
    apply in_firstn, in_sort_by, filter_In in Ho as [_ Hf].
    unfold search_filter, mem_string in Hf. simpl in Hf.
    apply andb_prop in Hf as [Hf Hm]. apply andb_prop in Hf as [Hu Hc].
    apply String.eqb_eq in Hu, Hc. split; [exact Hu|]. split; [exact Hc|].
    destruct (String.eqb_spec (memory_type (props o)) TYPE_MESSAGE) as [E|E]; [now left|].
    destruct (String.eqb_spec (memory_type (props o)) TYPE_SUMMARY) as [E'|E']; [now right|].
    simpl in Hm. discriminate.
Qed.

(** A memory inserted with [add_memory] for tenant [uid] and whose
    properties pass the search filter is found by [search_chat_memories]
    whenever the limit covers all the matching records. *)
Theorem add_memory_then_search dist s v p uid cid qv limit :
  search_filter uid cid {| uuid := next_uuid s; vector := v; props := p |} = true ->
  (length (List.filter (search_filter uid cid) (partition (fst (add_memory s v p uid)) uid))
     <= limit)%nat ->
  In (snd (add_memory s v p uid))
     (map res_id (search_chat_memories dist (fst (add_memory s v p uid)) uid cid qv limit)).
Proof.
  intros Hf Hlen. unfold search_chat_memories. rewrite map_map. simpl.
  apply in_map_iff. exists {| uuid := next_uuid s; vector := v; props := p |}.
  split; [reflexivity|].
  rewrite firstn_all2.
  - apply in_sort_by, filter_In. split; [|exact Hf].
    unfold partition; simpl. rewrite lookup_insert_eq. simpl.
    apply in_or_app. right. now left.
  - rewrite length_sort_by. exact Hlen.
Qed.

(** Witness: tenant "bob" already holds one message of "c1"; a second
    one is inserted and a search with limit 2 finds it. *)
Lemma add_memory_then_search_witness :
  let s := fst (add_memory empty_store [5] (sample_props "bob") "bob") in
  In (snd (add_memory s [2] (sample_props "bob") "bob"))
     (map res_id (search_chat_memories (fun v q => Z.abs (hd 0 v - hd 0 q))
        (fst (add_memory s [2] (sample_props "bob") "bob")) "bob" "c1" [1] 2)).
Proof.
  intros s. apply add_memory_then_search; vm_compute; [reflexivity|lia].
Defined.
End StoreExtra.

(* ------------------------------------------------------------------ *)
(** ** Further properties of the summarization pass *)
Module SummarizeExtra.
Import ChatStore Summarize ChatStoreProofs SummarizeProofs StoreExtra.

(** [o'] is [o] with at most its [is_summarized] flag set to true. *)
Definition same_but_flag (o o' : chat_object) : Prop :=
  uuid o' = uuid o /\ vector o' = vector o
  /\ chat_id (props o') = chat_id (props o) /\ content (props o') = content (props o)
  /\ created_at (props o') = created_at (props o)
  /\ memory_type (props o') = memory_type (props o)
  /\ message_id (props o') = message_id (props o)
  /\ sender (props o') = sender (props o) /\ user_id (props o') = user_id (props o)
  /\ (is_summarized (props o') = is_summarized (props o)
      \/ is_summarized (props o') = Some true).

(** The filter of [mark_messages_as_summarized]. *)
Definition mark_filter (uid cid : string) (ids : list string) (o : chat_object) : bool :=
  String.eqb (user_id (props o)) uid
  && String.eqb (chat_id (props o)) cid
  && String.eqb (memory_type (props o)) TYPE_MESSAGE
  && mem_string (message_id (props o)) ids.

(** The store after a pass may differ from [s] only in tenant [uid],
    whose old objects are kept in order with at most their flag set,
    followed by at most one new object. *)
Definition keeps (uid : string) (s s' : store) : Prop :=
  (forall t, t <> uid -> partition s' t = partition s t)
  /\ exists l1 l2, partition s' uid = l1 ++ l2
     /\ Forall2 same_but_flag (partition s uid) l1 /\ (length l2 <= 1)%nat.

Lemma same_but_flag_refl o : same_but_flag o o.
Proof. unfold same_but_flag. intuition. Qed.

Lemma same_but_flag_trans a b c :
  same_but_flag a b -> same_but_flag b c -> same_but_flag a c.
Proof. unfold same_but_flag. intuition congruence. Qed.

Lemma same_but_flag_set targets o : same_but_flag o (set_summarized targets o).
Proof.
  unfold set_summarized. destruct (existsb _ _); [|apply same_but_flag_refl].
  unfold same_but_flag; simpl. intuition.
Qed.

Lemma Forall2_same_but_flag_refl l : Forall2 same_but_flag l l.
Proof. induction l; constructor; auto using same_but_flag_refl. Qed.

Lemma Forall2_same_but_flag_set targets l l1 :
  Forall2 same_but_flag l l1 -> Forall2 same_but_flag l (map (set_summarized targets) l1).
Proof.
  induction 1; simpl; constructor; auto.
  eapply same_but_flag_trans; [eassumption|apply same_but_flag_set].
Qed.

Lemma partition_insert_eq (s : store) uid l n :
  partition {| tenants := <[uid := l]> (tenants s); next_uuid := n |} uid = l.
Proof. unfold partition; simpl. now rewrite lookup_insert_eq. Qed.

Lemma partition_insert_ne (s : store) uid t l n :
  t <> uid -> partition {| tenants := <[uid := l]> (tenants s); next_uuid := n |} t = partition s t.
Proof. intros H. unfold partition; simpl. rewrite lookup_insert_ne; congruence. Qed.

Lemma keeps_refl uid s : keeps uid s s.
Proof.
  split; [reflexivity|]. exists (partition s uid), []. rewrite app_nil_r.
  split; [reflexivity|]. split; [apply Forall2_same_but_flag_refl|simpl; lia].
Qed.

Lemma keeps_insert uid s o n :
  keeps uid s {| tenants := <[uid := partition s uid ++ [o]]> (tenants s); next_uuid := n |}.
Proof.
  split; [intros t Ht; now apply partition_insert_ne|].
  exists (partition s uid), [o]. rewrite partition_insert_eq.
  split; [reflexivity|]. split; [apply Forall2_same_but_flag_refl|simpl; lia].
Qed.

Lemma keeps_mark uid s s1 targets :
  keeps uid s s1 ->
  keeps uid s {| tenants := <[uid := map (set_summarized targets) (partition s1 uid)]> (tenants s1);
                 next_uuid := next_uuid s1 |}.
Proof.
  intros [Hot (l1 & l2 & Hp & Hf & Hl)]. split.
  - intros t Ht. rewrite partition_insert_ne by exact Ht. apply Hot, Ht.
  - exists (map (set_summarized targets) l1), (map (set_summarized targets) l2).
    rewrite partition_insert_eq, Hp, map_app. split; [reflexivity|].
    split; [now apply Forall2_same_but_flag_set|now rewrite length_map].
Qed.

Lemma mark_targets_filter s uid cid ids :
  mark_targets s uid cid ids
  = map uuid (firstn (length ids + 10) (List.filter (mark_filter uid cid ids) (partition s uid))).
Proof. reflexivity. Qed.

Lemma filter_andb {X} (f g : X -> bool) l :
  List.filter (fun x => f x && g x) l = List.filter g (List.filter f l).
Proof.
  induction l as [|x l IH]; simpl; [reflexivity|].
  destruct (f x); simpl; [destruct (g x); simpl; now rewrite IH|exact IH].
Qed.

Lemma filter_map_comm {X Y} (f : Y -> bool) (g : X -> Y) l :
  List.filter f (map g l) = map g (List.filter (fun x => f (g x)) l).
Proof.
  induction l as [|x l IH]; simpl; [reflexivity|].
  destruct (f (g x)); simpl; now rewrite IH.
Qed.

(** A fetch of the backlog returns at most [max_count] objects, in
    increasing [created_at] order, each an unsummarized message record
    of conversation [cid] in tenant [uid]'s partition. *)
Theorem unsummarized_results s uid cid n :
  let l := unsummarized s uid cid n in
  (length l <= n)%nat
  /\ Sorted (fun a b => created_at (props a) <= created_at (props b)) l
  /\ (forall o, In o l ->
        In o (partition s uid) /\ user_id (props o) = uid /\ chat_id (props o) = cid
        /\ memory_type (props o) = TYPE_MESSAGE /\ is_summarized (props o) = Some false).
Proof.
  unfold unsummarized. split; [|split].
  - rewrite length_firstn. lia.
  - apply sorted_firstn, sort_by_sorted.
  - intros o Ho. apply in_firstn, in_sort_by, filter_In in Ho as [Hin Hf].
    unfold unsummarized_filter in Hf.
    apply andb_prop in Hf as [Hf Hs]. apply andb_prop in Hf as [Hf Hm].
    apply andb_prop in Hf as [Hu Hc].
    apply String.eqb_eq in Hu, Hc, Hm. repeat (split; [assumption|]).
    destruct (is_summarized (props o)) as [[|]|]; [discriminate|reflexivity|discriminate].
Qed.

(** Attempt [a] of [mark_messages_as_summarized], over [n] fetched
    objects, meets no failing store operation. *)
Definition attempt_ok (e : env) (a n : nat) : bool :=
  match mark_fail e a with None => true | Some j => Nat.ltb n j end.

(** In attempt [a], one of the operations [k], ..., [k + n - 1] raises. *)
Definition fails_within (e : env) (a k n : nat) : bool :=
  match mark_fail e a with
  | Some j => Nat.leb k j && Nat.ltb j (k + n)
  | None => false
  end.

(** [s1] is [s] with the flag set on the objects of tenant [uid] whose
    uuid is among the first [m] of [T]. *)
Definition flagged (s : store) (uid : string) (T : list nat) (m : nat) (s1 : store) : Prop :=
  next_uuid s1 = next_uuid s
  /\ (forall t, t <> uid -> partition s1 t = partition s t)
  /\ partition s1 uid = map (set_summarized (firstn m T)) (partition s uid)
  /\ (m <= length T)%nat.

Lemma set_summarized_nil o : set_summarized [] o = o.
Proof. reflexivity. Qed.

Lemma map_set_summarized_nil l : map (set_summarized []) l = l.
Proof. induction l as [|o l IH]; simpl; [reflexivity|now rewrite IH]. Qed.

Lemma flagged_zero s uid T : flagged s uid T 0 s.
Proof.
  split; [reflexivity|]. split; [reflexivity|]. split; [|lia].
  simpl. symmetry. apply map_set_summarized_nil.
Qed.

Lemma set_summarized_ext L1 L2 o :
  (forall x, In x L1 <-> In x L2) -> set_summarized L1 o = set_summarized L2 o.
Proof.
  intros H. unfold set_summarized.
  destruct (existsb (Nat.eqb (uuid o)) L1) eqn:E1,
           (existsb (Nat.eqb (uuid o)) L2) eqn:E2; try reflexivity.
  - apply existsb_exists in E1 as (x & Hx & Ex). apply H in Hx.
    assert (existsb (Nat.eqb (uuid o)) L2 = true) by (apply existsb_exists; eauto). congruence.
  - apply existsb_exists in E2 as (x & Hx & Ex). apply H in Hx.
    assert (existsb (Nat.eqb (uuid o)) L1 = true) by (apply existsb_exists; eauto). congruence.
Qed.

Lemma set_summarized_comp L1 L2 o :
  set_summarized L2 (set_summarized L1 o) = set_summarized (L1 ++ L2) o.
Proof.
  unfold set_summarized. rewrite existsb_app.
  destruct (existsb (Nat.eqb (uuid o)) L1); simpl;
    destruct (existsb (Nat.eqb (uuid o)) L2); reflexivity.
Qed.

Lemma uuid_set_summarized L o : uuid (set_summarized L o) = uuid o.
Proof. unfold set_summarized. now destruct (existsb _ _). Qed.

Lemma mark_filter_set_summarized uid cid ids L o :
  mark_filter uid cid ids (set_summarized L o) = mark_filter uid cid ids o.
Proof. unfold set_summarized. now destruct (existsb _ _). Qed.

Lemma firstn_incl {X} m d (T : list X) :
  (m <= d)%nat -> forall x, In x (firstn m T) -> In x (firstn d T).
Proof.
  intros H x Hx. replace (firstn m T) with (firstn m (firstn d T)) in Hx.
  - now apply in_firstn in Hx.
  - rewrite firstn_firstn. f_equal. lia.
Qed.

Lemma firstn_union {X} (T : list X) m d :
  forall x, In x (firstn m T ++ firstn d T) <-> In x (firstn (Nat.max m d) T).
Proof.
  intros x. destruct (Nat.le_ge_cases m d) as [H|H].
  - rewrite Nat.max_r by exact H. split; intros Hx.
    + apply in_app_or in Hx as [Hx|Hx]; [exact (firstn_incl m d T H x Hx)|exact Hx].
    + apply in_or_app. now right.
  - rewrite Nat.max_l by exact H. split; intros Hx.
    + apply in_app_or in Hx as [Hx|Hx]; [exact Hx|exact (firstn_incl d m T H x Hx)].
    + apply in_or_app. now left.
Qed.

Lemma mark_targets_flagged s uid cid ids m s1 :
  flagged s uid (mark_targets s uid cid ids) m s1 ->
  mark_targets s1 uid cid ids = mark_targets s uid cid ids.
Proof.
  intros (_ & _ & Hp & _). rewrite !mark_targets_filter, Hp.
  rewrite filter_map_comm.
  rewrite (List.filter_ext (fun x => mark_filter uid cid ids (set_summarized _ x))
             (mark_filter uid cid ids)) by (intros; apply mark_filter_set_summarized).
  rewrite firstn_map, map_map. apply map_ext. apply uuid_set_summarized.
Qed.

Lemma fails_within_nil e a k : fails_within e a k 0 = false.
Proof.
  unfold fails_within. destruct (mark_fail e a) as [j|]; [|reflexivity].
  destruct (Nat.leb_spec k j), (Nat.ltb_spec j (k + 0)); try reflexivity; lia.
Qed.

Lemma update_objects_effect e a uid (s : store) L : forall k F s1,
  next_uuid s1 = next_uuid s -> (forall t, t <> uid -> partition s1 t = partition s t) ->
  partition s1 uid = map (set_summarized F) (partition s uid) ->
  let '(r, s2, _) := update_objects e a uid k L s1 in
  next_uuid s2 = next_uuid s /\ (forall t, t <> uid -> partition s2 t = partition s t)
  /\ (exists d, (d <= length L)%nat
      /\ partition s2 uid = map (set_summarized (F ++ firstn d L)) (partition s uid)
      /\ (r = Ret tt -> d = length L))
  /\ (r = Ret tt <-> fails_within e a k (length L) = false).
Proof.
  induction L as [|id rest IH]; intros k F s1 Hn Ho Hp; simpl.
  - split; [exact Hn|]. split; [exact Ho|]. split.
    + exists 0%nat. split; [lia|]. rewrite app_nil_r. split; [exact Hp|reflexivity].
    + rewrite fails_within_nil. tauto.
  - set (s1' := {| tenants := <[uid := map (set_summarized [id]) (partition s1 uid)]> (tenants s1);
                   next_uuid := next_uuid s1 |}).
    assert (Hn' : next_uuid s1' = next_uuid s) by exact Hn.
    assert (Ho' : forall t, t <> uid -> partition s1' t = partition s t).
    { intros t Ht. unfold s1'. rewrite partition_insert_ne by exact Ht. apply Ho, Ht. }
    assert (Hp' : partition s1' uid = map (set_summarized (F ++ [id])) (partition s uid)).
    { unfold s1'. rewrite partition_insert_eq, Hp, map_map. apply map_ext.
      intros o. apply set_summarized_comp. }
    unfold update_flag, mark_op, bind, ret, raise, get_store, put_store.
    destruct (mark_fail e a) as [j|] eqn:Ej.
    + destruct (Nat.eqb_spec j k) as [->|Hjk].
      * split; [exact Hn|]. split; [exact Ho|]. split.
        -- exists 0%nat. split; [lia|]. rewrite app_nil_r. split; [exact Hp|discriminate].
        -- unfold fails_within. rewrite Ej.
           destruct (Nat.leb_spec k k), (Nat.ltb_spec k (k + S (length rest))); try lia.
           split; discriminate.
      * cbv beta iota zeta.
        match goal with |- context [update_objects e a uid (S k) rest ?st] =>
          specialize (IH (S k) (F ++ [id]) st Hn' Ho' Hp');
          destruct (update_objects e a uid (S k) rest st) as [[r s2] t2] end.
        destruct IH as (Hn2 & Ho2 & (d & Hd & Hp2 & Hr2) & Hiff).
        split; [exact Hn2|]. split; [exact Ho2|]. split.
        -- exists (S d). split; [simpl; lia|]. split.
           ++ rewrite Hp2, <- app_assoc. reflexivity.
           ++ intros Hr. simpl. f_equal. apply Hr2, Hr.
        -- rewrite Hiff. unfold fails_within. rewrite Ej. simpl length.
           destruct (Nat.leb_spec (S k) j), (Nat.ltb_spec j (S k + length rest)),
             (Nat.leb_spec k j), (Nat.ltb_spec j (k + S (length rest))); simpl;
             try tauto; lia.
    + cbv beta iota zeta.
      match goal with |- context [update_objects e a uid (S k) rest ?st] =>
        specialize (IH (S k) (F ++ [id]) st Hn' Ho' Hp');
        destruct (update_objects e a uid (S k) rest st) as [[r s2] t2] end.
      destruct IH as (Hn2 & Ho2 & (d & Hd & Hp2 & Hr2) & Hiff).
      split; [exact Hn2|]. split; [exact Ho2|]. split.
      * exists (S d). split; [simpl; lia|]. split.
        -- rewrite Hp2, <- app_assoc. reflexivity.
        -- intros Hr. simpl. f_equal. apply Hr2, Hr.
      * rewrite Hiff. unfold fails_within. rewrite Ej. tauto.
Qed.

Lemma mark_attempt_effect e a uid cid ids s m s1 :
  ids <> [] -> flagged s uid (mark_targets s uid cid ids) m s1 ->
  let T := mark_targets s uid cid ids in
  let '(r, s2, _) := mark_attempt e a uid cid ids s1 in
  (exists m', flagged s uid T m' s2 /\ (r = Ret tt -> m' = length T))
  /\ (r = Ret tt <-> attempt_ok e a (length T) = true).
Proof.
  intros Hne Hf T. pose proof (mark_targets_flagged _ _ _ _ _ _ Hf) as HT.
  destruct Hf as (Hn & Ho & Hp & Hm). fold T in Hp, Hm.
  unfold mark_attempt. destruct ids as [|i ids]; [contradiction|].
  unfold bind, emit, get_store. rewrite HT. fold T.
  unfold mark_op at 1, ret, raise.
  destruct (mark_fail e a) as [j|] eqn:Ej.
  - destruct (Nat.eqb_spec j 0) as [->|Hj0].
    + split.
      * exists m. split; [repeat split; assumption|discriminate].
      * unfold attempt_ok. rewrite Ej. destruct (Nat.ltb_spec (length T) 0); [lia|].
        split; discriminate.
    + pose proof (update_objects_effect e a uid s T 1 (firstn m T) s1 Hn Ho Hp) as H.
      destruct (update_objects e a uid 1 T s1) as [[r s2] t2].
      destruct H as (Hn2 & Ho2 & (d & Hd & Hp2 & Hr2) & Hiff). split.
      * exists (Nat.max m d). split.
        -- split; [exact Hn2|]. split; [exact Ho2|]. split; [|lia].
           rewrite Hp2. apply map_ext. intros o. apply set_summarized_ext, firstn_union.
        -- intros Hr. specialize (Hr2 Hr). lia.
      * rewrite Hiff. unfold fails_within, attempt_ok. rewrite Ej.
        destruct (Nat.leb_spec 1 j), (Nat.ltb_spec j (1 + length T)),
          (Nat.ltb_spec (length T) j); simpl; try tauto; lia.
  - pose proof (update_objects_effect e a uid s T 1 (firstn m T) s1 Hn Ho Hp) as H.
    destruct (update_objects e a uid 1 T s1) as [[r s2] t2].
    destruct H as (Hn2 & Ho2 & (d & Hd & Hp2 & Hr2) & Hiff). split.
    + exists (Nat.max m d). split.
      * split; [exact Hn2|]. split; [exact Ho2|]. split; [|lia].
        rewrite Hp2. apply map_ext. intros o. apply set_summarized_ext, firstn_union.
      * intros Hr. specialize (Hr2 Hr). lia.
    + rewrite Hiff. unfold fails_within, attempt_ok. rewrite Ej. tauto.
Qed.

Lemma mark_messages_spec e uid cid ids s :
  let T := mark_targets s uid cid ids in
  let '(r, s', tr) := mark_messages_as_summarized e uid cid ids s in
  (exists m, flagged s uid T m s' /\ (r = Ret tt -> m = length T))
  /\ (ids = [] -> r = Ret tt /\ s' = s /\ tr = [])
  /\ (ids <> [] -> (exists n, (1 <= n <= 3)%nat /\ tr = repeat (Mark ids) n)
      /\ (r = Ret tt <-> existsb (fun a => attempt_ok e a (length T)) [0; 1; 2]%nat = true)).
Proof.
  intros T. destruct ids as [|i ids0].
  - simpl. split; [|split; [auto|intros H; contradiction]].
    exists (length T). split; [|reflexivity].
    unfold T, mark_targets. simpl. (* no target without ids in the filter *)
    split; [reflexivity|]. split; [reflexivity|]. split; [|lia].
    replace (firstn (length (map uuid _)) _) with
      (map uuid (firstn 10 (List.filter (mark_filter uid cid []) (partition s uid)))).
    + symmetry. rewrite (List.filter_ext_in (mark_filter uid cid []) (fun _ => false)).
      * assert (Hf0 : forall l, List.filter (fun _ : chat_object => false) l = [])
          by (intros l; induction l; simpl; auto).
        rewrite Hf0. simpl. apply map_set_summarized_nil.
      * intros o _. unfold mark_filter. simpl. now rewrite andb_false_r.
    + rewrite firstn_all. reflexivity.
  - assert (Hne : i :: ids0 <> []) by discriminate.
    unfold mark_messages_as_summarized, retry_on_error. cbn [retry_loop].
    pose proof (mark_attempt_effect e 0 uid cid (i :: ids0) s 0 s Hne (flagged_zero _ _ _)) as H0.
    pose proof (mark_attempt_trace e 0 uid cid (i :: ids0) s Hne) as T0.
    destruct (mark_attempt e 0 uid cid (i :: ids0) s) as [[r0 s1] t0]. cbv beta iota zeta. simpl in T0. subst t0.
    destruct H0 as [(m1 & Hf1 & Hr1) Hok0]. fold T in Hf1, Hr1, Hok0.
    destruct r0 as [[]|].
    + split; [exists m1; auto|]. split; [intros; discriminate|]. intros _.
      split; [exists 1%nat; split; [lia|reflexivity]|].
      simpl. rewrite (proj1 Hok0 eq_refl). tauto.
    + cbn [Nat.ltb Nat.leb].
      pose proof (mark_attempt_effect e 1 uid cid (i :: ids0) s m1 s1 Hne Hf1) as H1.
      pose proof (mark_attempt_trace e 1 uid cid (i :: ids0) s1 Hne) as T1.
      destruct (mark_attempt e 1 uid cid (i :: ids0) s1) as [[r1 s2] t1]. cbv beta iota zeta. simpl in T1. subst t1.
      destruct H1 as [(m2 & Hf2 & Hr2) Hok1]. fold T in Hf2, Hr2, Hok1.
      assert (A0 : attempt_ok e 0 (length T) = false).
      { apply Bool.not_true_iff_false. intros Hc. apply Hok0 in Hc. discriminate. }
      destruct r1 as [[]|].
      * split; [exists m2; auto|]. split; [intros; discriminate|]. intros _.
        split; [exists 2%nat; split; [lia|reflexivity]|].
        simpl. rewrite A0, (proj1 Hok1 eq_refl). tauto.
      * cbn [Nat.ltb Nat.leb].
        pose proof (mark_attempt_effect e 2 uid cid (i :: ids0) s m2 s2 Hne Hf2) as H2.
        pose proof (mark_attempt_trace e 2 uid cid (i :: ids0) s2 Hne) as T2.
        destruct (mark_attempt e 2 uid cid (i :: ids0) s2) as [[r2 s3] t2]. cbv beta iota zeta. simpl in T2. subst t2.
        destruct H2 as [(m3 & Hf3 & Hr3) Hok2]. fold T in Hf3, Hr3, Hok2.
        assert (A1 : attempt_ok e 1 (length T) = false).
        { apply Bool.not_true_iff_false. intros Hc. apply Hok1 in Hc. discriminate. }
        destruct r2 as [[]|].
        -- split; [exists m3; auto|]. split; [intros; discriminate|]. intros _.
           split; [exists 3%nat; split; [lia|reflexivity]|].
           simpl. rewrite A0, A1, (proj1 Hok2 eq_refl). tauto.
        -- cbn [Nat.ltb Nat.leb].
           assert (A2 : attempt_ok e 2 (length T) = false).
           { apply Bool.not_true_iff_false. intros Hc. apply Hok2 in Hc. discriminate. }
           split; [exists m3; auto|]. split; [intros; discriminate|]. intros _.
           split; [exists 3%nat; split; [lia|reflexivity]|].
           simpl. rewrite A0, A1, A2. split; discriminate.
Qed.

(** [mark_messages_as_summarized] only sets [is_summarized] flags: it
    keeps the uuid counter and every other tenant's partition, and sets
    the flag on the objects of tenant [uid] whose uuid is among the first
    [m] objects its query fetches, in the order of the loop, for some
    [m]; when it returns, [m] covers all of them. So an exception
    partway, also in the last attempt, leaves the earlier updates in
    place. On an empty id list it does nothing; otherwise it makes one
    to three attempts, and it returns exactly when one of the three
    attempts meets no failing store operation. *)
Theorem mark_messages_effect e uid cid ids s :
  let T := mark_targets s uid cid ids in
  let '(r, s', tr) := mark_messages_as_summarized e uid cid ids s in
  next_uuid s' = next_uuid s
  /\ (forall t, t <> uid -> partition s' t = partition s t)
  /\ (exists m, (m <= length T)%nat
      /\ partition s' uid = map (set_summarized (firstn m T)) (partition s uid)
      /\ (r = Ret tt -> m = length T))
  /\ (ids = [] -> r = Ret tt /\ s' = s /\ tr = [])
  /\ (ids <> [] -> (exists n, (1 <= n <= 3)%nat /\ tr = repeat (Mark ids) n)
      /\ (r = Ret tt <-> existsb (fun a => attempt_ok e a (length T)) [0; 1; 2]%nat = true)).
Proof.
  intros T. pose proof (mark_messages_spec e uid cid ids s) as H. fold T in H.
  destruct (mark_messages_as_summarized e uid cid ids s) as [[r s'] tr].
  destruct H as [(m & (Hn & Ho & Hp & Hm) & Hr) [H1 H2]].
  split; [exact Hn|]. split; [exact Ho|]. split; [exists m; auto|]. split; assumption.
Qed.

Lemma keeps_flagged uid s s1 T m s2 :
  keeps uid s s1 -> flagged s1 uid T m s2 -> keeps uid s s2.
Proof.
  intros [Hot (l1 & l2 & Hp & Hf & Hl)] (_ & Ho & Hp2 & _). split.
  - intros t Ht. rewrite Ho by exact Ht. apply Hot, Ht.
  - exists (map (set_summarized (firstn m T)) l1), (map (set_summarized (firstn m T)) l2).
    rewrite Hp2, Hp, map_app. split; [reflexivity|].
    split; [now apply Forall2_same_but_flag_set|now rewrite length_map].
Qed.

Lemma mark_ok_attempts e n :
  mark_ok e = true -> existsb (fun a => attempt_ok e a n) [0; 1; 2]%nat = true.
Proof.
  unfold mark_ok, attempt_ok. simpl. intros H.
  destruct (mark_fail e 0), (mark_fail e 1), (mark_fail e 2); simpl in *;
    try discriminate; rewrite ?Bool.orb_true_r; reflexivity.
Qed.

(** The summary record [_save_summary_to_vector_store] inserts, and the
    store after [mark_messages_as_summarized] succeeds. *)
Definition summary_object (e : env) (s : store) (cid uid sm : string) (v : list Z)
  : chat_object :=
  {| uuid := next_uuid s; vector := v;
     props := {| chat_id := cid; content := sm; created_at := now_ts e;
                 is_summarized := None; memory_type := TYPE_SUMMARY;
                 message_id := ("summary_" ++ cid ++ "_" ++ now_str e)%string;
                 sender := "system"; user_id := uid |} |}.

Lemma pass_success_result e cid uid s sm v :
  fetch_ok e = true -> insert_ok e = true ->
  (forall t, llm e t = Some sm) -> sm <> ""%string ->
  (forall t, encode e t = Some v) ->
  (10 <= length (unsummarized s uid cid 20))%nat ->
  let s1 := {| tenants := <[uid := partition s uid ++ [summary_object e s cid uid sm v]]> (tenants s);
               next_uuid := S (next_uuid s) |} in
  let ids := collect_ids (sort_by (fun o => created_at (props o)) (unsummarized s uid cid 20)) in
  summarize_and_vectorize_background e cid uid s
  = (snd (fst (mark_messages_as_summarized e uid cid ids s1)),
     [Fetch; Generate; Encode; Insert (next_uuid s)]
       ++ snd (mark_messages_as_summarized e uid cid ids s1)).
Proof.
  intros Hf Hi Hl Hsm He Hlen s1 ids.
  unfold summarize_and_vectorize_background, summarize_body, get_unsummarized_messages,
    get_llm_summary, save_summary_to_vector_store, embed, crud_add_memory,
    bind, emit, ret, raise, get_store, put_store.
  rewrite Hf. simpl.
  change (Z.to_nat memory_summarize_threshold) with 20%nat.
  replace (Z.ltb _ _) with false
    by (symmetry; apply Z.ltb_ge; change (memory_summarize_threshold / 2) with 10; lia).
  destruct (map message_text _) eqn:Hm.
  { apply (f_equal (@length string)) in Hm. rewrite length_map, length_sort_by in Hm.
    simpl in Hm. lia. }
  simpl. rewrite Hl. destruct sm as [|c sm]; [contradiction|].
  simpl. rewrite He. simpl. rewrite Hi. simpl.
  fold ids. destruct ids as [|i ids']; [reflexivity|].
  match goal with |- context [mark_messages_as_summarized ?a ?b ?c ?d ?st] =>
    change st with s1 end.
  destruct (mark_messages_as_summarized e uid cid (i :: ids') s1) as [[r s2] t2].
  reflexivity.
Qed.

Lemma mem_string_In x l : mem_string x l = true <-> In x l.
Proof.
  unfold mem_string. rewrite existsb_exists. split.
  - intros (y & Hy & E). apply String.eqb_eq in E. now subst.
  - intros H. exists x. split; [exact H|apply String.eqb_refl].
Qed.

Lemma mark_store_clears s s' uid cid ids n :
  partition s' uid = map (set_summarized (mark_targets s uid cid ids)) (partition s uid) ->
  (length (List.filter (mark_filter uid cid ids) (partition s uid)) <= length ids + 10)%nat ->
  forall o, In o (unsummarized s' uid cid n) ->
  ~ In (message_id (props o)) ids.
Proof.
  intros Hp Hcnt o Ho Hid. unfold unsummarized in Ho. rewrite Hp in Ho.
  apply in_firstn, in_sort_by, filter_In in Ho as [Hin Huf].
  apply in_map_iff in Hin as (o0 & <- & Ho0).
  unfold set_summarized in Huf, Hid.
  destruct (existsb (Nat.eqb (uuid o0)) (mark_targets s uid cid ids)) eqn:E.
  - unfold unsummarized_filter in Huf. simpl in Huf.
    rewrite andb_false_r in Huf. discriminate.
  - revert E. apply Bool.not_false_iff_true. apply existsb_exists.
    exists (uuid o0). split; [|apply Nat.eqb_refl].
    rewrite mark_targets_filter. apply in_map. rewrite firstn_all2 by exact Hcnt.
    apply filter_In. split; [exact Ho0|].
    unfold unsummarized_filter in Huf. unfold mark_filter.
    apply andb_prop in Huf as [Huf _]. rewrite Huf. simpl.
    now apply mem_string_In.
Qed.

(** A pass never deletes anything: whatever its collaborators do,
    including a marking that fails partway through its update loop in
    any of its attempts, other tenants' partitions are unchanged, and
    tenant [uid]'s objects are all still there, in order, with at most
    their [is_summarized] flag set to true, followed by at most one new
    object. *)
Theorem pass_never_deletes e cid uid s :
  keeps uid s (fst (summarize_and_vectorize_background e cid uid s)).
Proof.
  unfold summarize_and_vectorize_background, summarize_body, get_unsummarized_messages,
    get_llm_summary, save_summary_to_vector_store, embed, crud_add_memory,
    bind, emit, ret, raise, get_store, put_store.
  destruct (fetch_ok e); [|apply keeps_refl]. simpl.
  destruct (Z.ltb _ _); [apply keeps_refl|].
  destruct (map message_text _); [apply keeps_refl|]. simpl.
  destruct (llm e _) as [[|c sm]|]; [apply keeps_refl| |apply keeps_refl]. simpl.
  destruct (encode e _); [|apply keeps_refl]. simpl.
  destruct (insert_ok e); [|apply keeps_refl]. simpl.
  destruct (collect_ids _); [apply keeps_insert|].
  match goal with |- context [mark_messages_as_summarized ?a ?b ?c ?d ?st] =>
    pose proof (mark_messages_spec a b c d st) as Hm;
    destruct (mark_messages_as_summarized a b c d st) as [[r s2] t2] end.
  cbv beta iota zeta in Hm. destruct Hm as [(m & Hfl & _) _]. simpl.
  eapply keeps_flagged; [apply keeps_insert|exact Hfl].
Qed.

(** A pass whose fetch returns at least 10 messages and whose model,
    embedding and insert succeed appends exactly one record to tenant
    [uid]'s partition: the summary, with a fresh uuid, kind [summary],
    sender "system", the conversation and tenant ids and no
    [is_summarized] flag (marking goes by uuid, and in a store whose
    uuids were all handed out by it no older object shares the fresh
    one); the calls start with fetch, generate, encode and the insert
    of that uuid. *)
Theorem pass_success e cid uid s sm v :
  store_wf s -> fetch_ok e = true -> insert_ok e = true ->
  (forall t, llm e t = Some sm) -> sm <> ""%string ->
  (forall t, encode e t = Some v) ->
  (10 <= length (unsummarized s uid cid 20))%nat ->
  let '(s', tr) := summarize_and_vectorize_background e cid uid s in
  (exists l1, partition s' uid = l1 ++ [summary_object e s cid uid sm v]
              /\ Forall2 same_but_flag (partition s uid) l1)
  /\ (forall t, t <> uid -> partition s' t = partition s t)
  /\ next_uuid s' = S (next_uuid s)
  /\ firstn 4 tr = [Fetch; Generate; Encode; Insert (next_uuid s)].
Proof.
  intros Hwf Hf Hi Hl Hsm He Hlen.
  rewrite (pass_success_result e cid uid s sm v Hf Hi Hl Hsm He Hlen).
  set (s1 := {| tenants := <[uid := partition s uid ++ [summary_object e s cid uid sm v]]> (tenants s);
                next_uuid := S (next_uuid s) |}).
  set (ids := collect_ids _).
  pose proof (mark_messages_spec e uid cid ids s1) as HM.
  destruct (mark_messages_as_summarized e uid cid ids s1) as [[r s'] tr].
  cbv beta iota zeta in HM. destruct HM as [(m & (Hn & Ho & Hp & _) & _) _].
  cbn [fst snd]. split; [|split; [|split]].
  - exists (map (set_summarized (firstn m (mark_targets s1 uid cid ids))) (partition s uid)).
    assert (Hs1 : partition s1 uid = partition s uid ++ [summary_object e s cid uid sm v])
      by (unfold s1; apply partition_insert_eq).
    rewrite Hp, Hs1, map_app. simpl. split.
    + f_equal. f_equal. unfold set_summarized.
      replace (existsb _ _) with false; [reflexivity|].
      symmetry. apply Bool.not_true_iff_false. rewrite existsb_exists.
      intros (x & Hx & Ex). apply Nat.eqb_eq in Ex. simpl in Ex. subst x.
      apply in_firstn in Hx.
      unfold s1 in Hx. rewrite mark_targets_filter, partition_insert_eq in Hx.
      apply in_map_iff in Hx as (o & Eo & Ho'). apply in_firstn, filter_In in Ho' as [Ho' Hmf].
      apply in_app_or in Ho' as [Ho'|[<-|[]]].
      * unfold partition in Ho'. destruct (tenants s !! uid) as [l|] eqn:El; [|destruct Ho'].
        specialize (Hwf uid l o El Ho'). simpl in Eo. lia.
      * unfold mark_filter in Hmf. simpl in Hmf. rewrite andb_false_r in Hmf.
        simpl in Hmf. discriminate.
    + apply Forall2_same_but_flag_set, Forall2_same_but_flag_refl.
  - intros t Ht. rewrite Ho by exact Ht. unfold s1. now apply partition_insert_ne.
  - rewrite Hn. reflexivity.
  - reflexivity.
Qed.

(** After [mark_messages_as_summarized] succeeds on a non-empty id list,
    no unsummarized message of the conversation carries one of the ids,
    provided the tenant holds at most [len(message_ids) + 10] matching
    records (the limit of the query that fetches them). *)
Theorem mark_clears_ids e uid cid ids s n :
  ids <> [] -> mark_ok e = true ->
  (length (List.filter (mark_filter uid cid ids) (partition s uid)) <= length ids + 10)%nat ->
  forall o, In o (unsummarized (snd (fst (mark_messages_as_summarized e uid cid ids s))) uid cid n) ->
  ~ In (message_id (props o)) ids.
Proof.
  intros Hne Hok Hcnt.
  pose proof (mark_messages_spec e uid cid ids s) as HM.
  destruct (mark_messages_as_summarized e uid cid ids s) as [[r s'] tr].
  cbv beta iota zeta in HM. destruct HM as [(m & (_ & _ & Hp & _) & Hr) [_ H2]].
  cbn [fst snd]. destruct (H2 Hne) as [_ Hiff].
  assert (Hret : r = Ret tt) by (apply Hiff, mark_ok_attempts, Hok).
  rewrite (Hr Hret), firstn_all in Hp.
  exact (mark_store_clears s s' uid cid ids n Hp Hcnt).
Qed.

(** The message records of conversation [cid] in tenant [uid]. *)
Definition conversation_message (uid cid : string) (o : chat_object) : bool :=
  String.eqb (user_id (props o)) uid
  && String.eqb (chat_id (props o)) cid
  && String.eqb (memory_type (props o)) TYPE_MESSAGE.

Lemma in_unsummarized s uid cid n o :
  In o (unsummarized s uid cid n) ->
  In o (partition s uid) /\ conversation_message uid cid o = true.
Proof.
  unfold unsummarized. intros Ho. apply in_firstn, in_sort_by, filter_In in Ho as [Hin Hf].
  split; [exact Hin|]. unfold unsummarized_filter in Hf. unfold conversation_message.
  apply andb_prop in Hf as [Hf _]. exact Hf.
Qed.

Lemma collect_ids_all l :
  (forall o, In o l -> message_id (props o) <> ""%string) ->
  collect_ids l = map (fun o => message_id (props o)) l.
Proof.
  unfold collect_ids. induction l as [|o l IH]; simpl; intros H; [reflexivity|].
  replace (String.eqb (message_id (props o)) "") with false
    by (symmetry; apply String.eqb_neq; apply H; now left).
  simpl. f_equal. apply IH. intros o' Ho'. apply H. now right.
Qed.

(** A successful pass drains its batch: when the fetch returns at least
    10 messages, every collaborator succeeds, and the conversation's
    message records carry non-empty, pairwise distinct message ids, no
    message left unsummarized afterwards shares its id with a message of
    the batch that was summarized. *)
Theorem pass_drains_batch e cid uid s sm v n :
  fetch_ok e = true -> insert_ok e = true -> mark_ok e = true ->
  (forall t, llm e t = Some sm) -> sm <> ""%string ->
  (forall t, encode e t = Some v) ->
  (10 <= length (unsummarized s uid cid 20))%nat ->
  List.NoDup (map (fun o => message_id (props o))
                (List.filter (conversation_message uid cid) (partition s uid))) ->
  (forall o, In o (partition s uid) -> conversation_message uid cid o = true ->
             message_id (props o) <> ""%string) ->
  forall o o', In o (unsummarized s uid cid 20) ->
  In o' (unsummarized (fst (summarize_and_vectorize_background e cid uid s)) uid cid n) ->
  message_id (props o') <> message_id (props o).
Proof.
  intros Hf Hi Hm Hl Hsm He Hlen Hnd Hne o o' Ho Ho'.
  rewrite (pass_success_result e cid uid s sm v Hf Hi Hl Hsm He Hlen) in Ho'.
  set (batch := unsummarized s uid cid 20) in *.
  set (sb := sort_by (fun o => created_at (props o)) batch) in *.
  assert (Hsb : forall x, In x sb -> In x (partition s uid) /\ conversation_message uid cid x = true).
  { intros x Hx. apply in_sort_by in Hx. now apply in_unsummarized in Hx. }
  assert (Hids : collect_ids sb = map (fun o => message_id (props o)) sb).
  { apply collect_ids_all. intros x Hx. apply Hsb in Hx as [Hx Hc]. now apply Hne. }
  assert (Hoin : In (message_id (props o)) (collect_ids sb)).
  { rewrite Hids. apply (in_map (fun o => message_id (props o))). now apply in_sort_by. }
  set (ids := collect_ids sb) in *.
  destruct ids as [|i ids'] eqn:Eids; [destruct Hoin|].
  match type of Ho' with context [mark_messages_as_summarized ?a ?b ?c ?d ?st] =>
    pose proof (mark_messages_spec a b c d st) as HM;
    destruct (mark_messages_as_summarized a b c d st) as [[r s'] tr] end.
  cbv beta iota zeta in HM. cbn [fst snd] in Ho'.
  destruct HM as [(m & (_ & _ & Hp & _) & Hr) [_ H2]].
  destruct (H2 ltac:(discriminate)) as [_ Hiff].
  assert (Hret : r = Ret tt) by (apply Hiff, mark_ok_attempts, Hm).
  rewrite (Hr Hret), firstn_all in Hp.
  intros Eq. eapply mark_store_clears; [exact Hp| |exact Ho'|rewrite Eq; exact Hoin].
  rewrite partition_insert_eq, List.filter_app. simpl.
  unfold mark_filter at 2. simpl. rewrite andb_false_r. simpl. rewrite app_nil_r.
  transitivity (length (i :: ids')); [|simpl; lia].
  rewrite <- (length_map (fun o => message_id (props o))).
  apply NoDup_incl_length.
  - unfold mark_filter. rewrite (filter_andb (conversation_message uid cid)
      (fun o => mem_string (message_id (props o)) (i :: ids'))).
    rewrite <- (filter_map_comm (fun x => mem_string x (i :: ids'))).
    now apply List.NoDup_filter.
  - intros x Hx. apply in_map_iff in Hx as (y & <- & Hy).
    apply filter_In in Hy as [_ Hy]. unfold mark_filter in Hy.
    apply andb_prop in Hy as [_ Hy]. now apply mem_string_In.
Qed.

Lemma add_memory_wf s v p t : store_wf s -> store_wf (fst (add_memory s v p t)).
Proof.
  intros H t' l o Hl Ho. unfold add_memory, insert in Hl; simpl in *.
  destruct (decide (t' = t)) as [->|Hne].
  - rewrite lookup_insert_eq in Hl. injection Hl as <-.
    apply in_app_or in Ho as [Ho|[<-|[]]]; [|simpl; lia].
    unfold partition in Ho. destruct (tenants s !! t) as [l0|] eqn:E; [|destruct Ho].
    specialize (H t l0 o E Ho). lia.
  - rewrite lookup_insert_ne in Hl by congruence. specialize (H _ _ _ Hl Ho). lia.
Qed.

Lemma add_messages_wf n : store_wf (add_messages n empty_store).
Proof. induction n; simpl; [apply empty_store_wf|apply add_memory_wf, IHn]. Qed.

(** Witness: the pass over twelve messages with every collaborator
    succeeding. *)
Lemma pass_success_witness :
  let '(s', tr) := summarize_and_vectorize_background env_ok "c" "u" (add_messages 12 empty_store) in
  (exists l1, partition s' "u" = l1 ++ [summary_object env_ok (add_messages 12 empty_store)
                                         "c" "u" "summary text" [0]]
              /\ Forall2 same_but_flag (partition (add_messages 12 empty_store) "u") l1)
  /\ (forall t, t <> "u"%string -> partition s' t = partition (add_messages 12 empty_store) t)
  /\ next_uuid s' = S (next_uuid (add_messages 12 empty_store))
  /\ firstn 4 tr = [Fetch; Generate; Encode; Insert (next_uuid (add_messages 12 empty_store))].
Proof.
  apply (pass_success env_ok "c" "u" (add_messages 12 empty_store) "summary text" [0]).
  - apply add_messages_wf.
  - reflexivity.
  - reflexivity.
  - intros t. reflexivity.
  - discriminate.
  - intros t. reflexivity.
  - vm_compute. lia.
Defined.

(** A store whose second [data.update] raises in every attempt. *)
Definition env_mark_partial : env :=
  {| fetch_ok := true; llm := fun _ => Some "summary text"%string;
     encode := fun _ => Some [0]; insert_ok := true; mark_fail := fun _ => Some 2%nat;
     now_ts := 100; now_str := "T" |}.

(** Witness: marking messages "B" and "C" when the second update always
    raises: the call raises, and the flag set on "B" by the first update
    stays. *)
Lemma mark_messages_effect_witness :
  fst (fst (mark_messages_as_summarized env_mark_partial "u" "c" ["B"; "C"]
              (add_messages 12 empty_store))) = Raise
  /\ next_uuid (snd (fst (mark_messages_as_summarized env_mark_partial "u" "c" ["B"; "C"]
                            (add_messages 12 empty_store))))
     = next_uuid (add_messages 12 empty_store)
  /\ marked_count (snd (fst (mark_messages_as_summarized env_mark_partial "u" "c" ["B"; "C"]
                               (add_messages 12 empty_store)))) = 1%nat.
Proof.
  split; [|split; [|vm_compute; reflexivity]].
  - assert (H := mark_messages_effect env_mark_partial "u" "c" ["B"; "C"]
                   (add_messages 12 empty_store)).
    destruct (mark_messages_as_summarized env_mark_partial "u" "c" ["B"; "C"]
                (add_messages 12 empty_store)) as [[r s'] tr].
    destruct H as (_ & _ & _ & _ & H). destruct (H ltac:(discriminate)) as [_ Hiff].
    destruct r as [[]|]; [|reflexivity].
    assert (Hc := proj1 Hiff eq_refl). vm_compute in Hc. discriminate.
  - assert (H := mark_messages_effect env_mark_partial "u" "c" ["B"; "C"]
                   (add_messages 12 empty_store)).
    destruct (mark_messages_as_summarized env_mark_partial "u" "c" ["B"; "C"]
                (add_messages 12 empty_store)) as [[r s'] tr].
    destruct H as (Hn & _). exact Hn.
Defined.

(** Witness: marking two of the twelve messages. *)
Lemma mark_clears_ids_witness :
  Forall (fun o => ~ In (message_id (props o)) ["B"; "C"]%string)
    (unsummarized (snd (fst (mark_messages_as_summarized env_ok "u" "c" ["B"; "C"]
                               (add_messages 12 empty_store)))) "u" "c" 20).
Proof.
  apply List.Forall_forall.
  apply (mark_clears_ids env_ok "u" "c" ["B"; "C"] (add_messages 12 empty_store) 20).
  - discriminate.
  - reflexivity.
  - vm_compute. lia.
Defined.

(** Witness: the pass over twelve messages with distinct ids. *)
Lemma pass_drains_batch_witness :
  Forall (fun o =>
    Forall (fun o' => message_id (props o') <> message_id (props o))
      (unsummarized (fst (summarize_and_vectorize_background env_ok "c" "u"
                            (add_messages 12 empty_store))) "u" "c" 20))
    (unsummarized (add_messages 12 empty_store) "u" "c" 20).
Proof.
  apply List.Forall_forall. intros o Ho. apply List.Forall_forall. intros o' Ho'. revert o o' Ho Ho'.
  apply (pass_drains_batch env_ok "c" "u" (add_messages 12 empty_store) "summary text" [0] 20).
  - reflexivity.
  - reflexivity.
  - reflexivity.
  - intros t. reflexivity.
  - discriminate.
  - intros t. reflexivity.
  - vm_compute. lia.
  - vm_compute. repeat constructor; simpl; intuition discriminate.
  - intros o Ho _. vm_compute in Ho.
    repeat (destruct Ho as [<-|Ho]; [discriminate|]). destruct Ho.
Defined.
End SummarizeExtra.

(* ------------------------------------------------------------------ *)
(** ** Message vectorization (vectorization_service.py) *)
Module Vectorize.
Import ChatStore Summarize.

(** The fields of a [Message] entity [_vectorize_message_background]
    reads: [str(message.id.value)], [chat_id], [content.value],
    [created_at], [sender_type.value] and [sender_id]. *)
Record chat_message := {
  message_id_value : string;
  message_chat_id : string;
  message_content : string;
  message_created_at : Z;
  message_sender_type : string;
  message_sender_id : string;
}.

(** The [metadata] dict it builds; it has no [is_summarized] key, so the
    stored object lacks the property ([None]). *)
Definition message_metadata (m : chat_message) : chat_props :=
  {| chat_id := message_chat_id m; content := message_content m;
     created_at := message_created_at m; is_summarized := None;
     memory_type := TYPE_MESSAGE; message_id := message_id_value m;
     sender := message_sender_type m; user_id := message_sender_id m |}.

(** The body of the [try] block: encode the content and add it to the
    ChatMemory collection of tenant [sender_id]. *)
Definition vectorize_body (e : env) (m : chat_message) : M unit :=
  vector <-- embed e (message_content m) ;;
  crud_add_memory e vector (message_metadata m) (message_sender_id m) ;;; ret tt.

(** [VectorizationService.vectorize_message], which runs
    [_vectorize_message_background]: every exception is caught and
    logged, the store keeps whatever was written. *)
Definition vectorize_message (e : env) (m : chat_message) (s : store) : store * list sevent :=
  let '(_, s', tr) := vectorize_body e m s in (s', tr).

(** The two entry points that write the ChatMemory collection, each with
    what its collaborators do on that call. *)
Inductive op :=
| OpVectorize (e : env) (m : chat_message)
| OpSummarize (e : env) (cid uid : string) (message_count : Z).

Fixpoint run (ops : list op) (s : store) : store :=
  match ops with
  | [] => s
  | OpVectorize e m :: ops' => run ops' (fst (vectorize_message e m s))
  | OpSummarize e cid uid n :: ops' => run ops' (fst (summarize_chat e cid uid n s))
  end.

End Vectorize.

(* ------------------------------------------------------------------ *)
(** ** Vectorization proofs *)
Module VectorizeProofs.
Import ChatStore Summarize SummarizeProofs Vectorize.

(** No object of the store has [is_summarized = false]. *)
Definition no_false_flag (s : store) : Prop :=
  forall t o, In o (partition s t) -> is_summarized (props o) <> Some false.

(** Every object of the store is a message record without the flag. *)
Definition only_bare_messages (s : store) : Prop :=
  forall t o, In o (partition s t) ->
  memory_type (props o) = TYPE_MESSAGE /\ is_summarized (props o) = None.

Lemma filter_all_false_list {X} (p : X -> bool) (l : list X) :
  (forall x, In x l -> p x = false) -> List.filter p l = [].
Proof.
  induction l as [|x l IH]; intros H; [reflexivity|]. simpl.
  rewrite (H x (or_introl eq_refl)). apply IH. intros y Hy. apply H. now right.
Qed.

Lemma empty_only_bare : only_bare_messages empty_store.
Proof.
  intros t o Ho. unfold partition in Ho. simpl in Ho. rewrite lookup_empty in Ho. destruct Ho.
Qed.

Lemma unsummarized_no_false_flag s uid cid n :
  no_false_flag s -> unsummarized s uid cid n = [].
Proof.
  intros H. unfold unsummarized.
  replace (List.filter (unsummarized_filter uid cid) (partition s uid)) with (@nil chat_object);
    [destruct n; reflexivity|].
  symmetry. apply filter_all_false_list. intros o Ho.
  unfold unsummarized_filter. specialize (H uid o Ho).
  destruct (is_summarized (props o)) as [[|]|]; [now rewrite andb_false_r|congruence|
                                                now rewrite andb_false_r].
Qed.

Lemma vectorize_result e m s :
  vectorize_message e m s
  = match encode e (message_content m) with
    | None => (s, [Encode])
    | Some v =>
        if insert_ok e
        then (fst (add_memory s v (message_metadata m) (message_sender_id m)),
              [Encode; Insert (next_uuid s)])
        else (s, [Encode])
    end.
Proof.
  unfold vectorize_message, vectorize_body, embed, crud_add_memory,
    bind, emit, ret, raise, get_store, put_store.
  destruct (encode e _); [|reflexivity]. simpl. destruct (insert_ok e); reflexivity.
Qed.

Lemma partition_add_memory s v p t :
  partition (fst (add_memory s v p t)) t
  = partition s t ++ [{| uuid := next_uuid s; vector := v; props := p |}].
Proof. unfold partition, add_memory, insert; simpl. now rewrite lookup_insert_eq. Qed.

Lemma pass_no_backlog e cid uid s :
  no_false_flag s -> summarize_and_vectorize_background e cid uid s = (s, [Fetch]).
Proof.
  intros H. unfold summarize_and_vectorize_background, summarize_body,
    get_unsummarized_messages, bind, emit, ret, raise, get_store.
  destruct (fetch_ok e); [|reflexivity]. simpl.
  rewrite (unsummarized_no_false_flag s uid cid _ H). reflexivity.
Qed.

Lemma only_bare_no_false s : only_bare_messages s -> no_false_flag s.
Proof. intros H t o Ho. destruct (H t o Ho) as [_ ->]. discriminate. Qed.

Lemma only_bare_vectorize e m s :
  only_bare_messages s -> only_bare_messages (fst (vectorize_message e m s)).
Proof.
  intros H t o Ho. rewrite vectorize_result in Ho.
  destruct (encode e _); [|exact (H t o Ho)].
  destruct (insert_ok e); [|exact (H t o Ho)]. cbn [fst] in Ho.
  destruct (decide (t = message_sender_id m)) as [->|Hne].
  - rewrite partition_add_memory in Ho. apply in_app_or in Ho as [Ho|[<-|[]]].
    + exact (H _ o Ho).
    + split; reflexivity.
  - rewrite ChatStoreProofs.partition_add_other in Ho by congruence. exact (H t o Ho).
Qed.

Lemma only_bare_summarize e cid uid n s :
  only_bare_messages s -> fst (summarize_chat e cid uid n s) = s.
Proof.
  intros H. unfold summarize_chat.
  destruct (_ && _); [|reflexivity].
  rewrite pass_no_backlog; [reflexivity|now apply only_bare_no_false].
Qed.

(** [_vectorize_message_background] swallows every error: when the
    embedding or the insert fails the store is unchanged; otherwise the
    message is appended to the partition of tenant [sender_id] as a
    [message] record without an [is_summarized] property, and that
    record is never returned by a backlog fetch, for any tenant,
    conversation or limit. *)
Theorem vectorize_message_effect e m s :
  let '(s', tr) := vectorize_message e m s in
  let o := {| uuid := next_uuid s; vector := default [] (encode e (message_content m));
              props := message_metadata m |} in
  (encode e (message_content m) = None \/ insert_ok e = false -> s' = s /\ tr = [Encode])
  /\ (encode e (message_content m) <> None -> insert_ok e = true ->
      partition s' (message_sender_id m) = partition s (message_sender_id m) ++ [o]
      /\ (forall t, t <> message_sender_id m -> partition s' t = partition s t)
      /\ tr = [Encode; Insert (next_uuid s)]
      /\ forall uid cid n, ~ In o (unsummarized s' uid cid n)).
Proof.
  rewrite vectorize_result.
  destruct (encode e (message_content m)) as [v|] eqn:Ev; simpl.
  - destruct (insert_ok e) eqn:Hi.
    + split; [intros [H|H]; discriminate|]. intros _ _.
      split; [apply partition_add_memory|].
      split; [intros t Ht; apply ChatStoreProofs.partition_add_other; congruence|].
      split; [reflexivity|]. intros uid cid n Hin.
      unfold unsummarized in Hin. apply ChatStoreProofs.in_firstn,
        ChatStoreProofs.in_sort_by, filter_In in Hin as [_ Hf].
      unfold unsummarized_filter in Hf. simpl in Hf. now rewrite andb_false_r in Hf.
    + split; [auto|]. intros _ H; discriminate.
  - split; [auto|]. intros H; contradiction.
Qed.

(** A pass over a store without any [is_summarized = false] object
    leaves the store unchanged after the fetch, whatever its
    collaborators do. *)
Theorem pass_without_false_flags e cid uid s :
  no_false_flag s -> summarize_and_vectorize_background e cid uid s = (s, [Fetch]).
Proof. apply pass_no_backlog. Qed.

(** Starting from an empty ChatMemory collection, any sequence of
    message vectorizations and summarization triggers, whatever their
    collaborators do, leaves only [message] records without an
    [is_summarized] property: [get_unsummarized_messages] filters on
    [is_summarized == False], which never holds of a record written by
    [_vectorize_message_background], so no summary is ever written and
    no message is ever marked. *)
Theorem run_never_summarizes ops :
  only_bare_messages (run ops empty_store).
Proof.
  generalize empty_only_bare. generalize empty_store. induction ops as [|[e m|e cid uid n] ops IH];
    intros s Hs; simpl; [exact Hs| |].
  - apply IH, only_bare_vectorize, Hs.
  - rewrite only_bare_summarize by exact Hs. apply IH, Hs.
Qed.

(** Witness: a store with one vectorized message. *)
(** Witness: message "m1" of user "u" vectorized with working
    collaborators into an empty store. *)
Lemma vectorize_message_effect_witness :
  let m := {| message_id_value := "m1"; message_chat_id := "c"; message_content := "hi";
              message_created_at := 1; message_sender_type := "user";
              message_sender_id := "u" |} in
  let o := {| uuid := next_uuid empty_store;
              vector := default [] (encode env_ok (message_content m));
              props := message_metadata m |} in
  let s' := fst (vectorize_message env_ok m empty_store) in
  partition s' "u" = partition empty_store "u" ++ [o]
  /\ snd (vectorize_message env_ok m empty_store) = [Encode; Insert (next_uuid empty_store)]
  /\ forall uid cid n, ~ In o (unsummarized s' uid cid n).
Proof.
  intros m o s'. unfold s'.
  assert (H := vectorize_message_effect env_ok m empty_store).
  destruct (vectorize_message env_ok m empty_store) as [s1 tr] eqn:E.
  destruct H as [_ H]. destruct H as [H1 [_ [H3 H4]]]; [discriminate|reflexivity|].
  simpl. split; [exact H1|]. split; [exact H3|exact H4].
Defined.

Lemma pass_without_false_flags_witness :
  let m := {| message_id_value := "m1"; message_chat_id := "c"; message_content := "hi";
              message_created_at := 1; message_sender_type := "user";
              message_sender_id := "u" |} in
  let s := fst (vectorize_message env_ok m empty_store) in
  summarize_and_vectorize_background env_ok "c" "u" s = (s, [Fetch]).
Proof.
  intros m s. apply pass_without_false_flags.
  apply only_bare_no_false, only_bare_vectorize, empty_only_bare.
Defined.

End VectorizeProofs.

(* ------------------------------------------------------------------ *)
(** ** prompt_builder_service.py, message_processor.py *)
Module PromptBuilder.

(** The fields of a [Message] entity the prompt uses; [deleted] is
    [is_deleted] ([deleted_at is not None]). *)
Record message := {
  msg_sender_type : string;
  msg_content : string;
  msg_created_at : Z;
  msg_deleted : bool;
}.

(** A retrieved memory dict, through the keys the prompt reads with
    [mem.get]: ["type"], ["sender"], ["content"], and the certainty of
    ["_additional"], kept as the text [f"{certainty:.2f}"] prints. *)
Record memory_item := {
  mi_type : option string;
  mi_sender : option string;
  mi_content : option string;
  mi_certainty : option string;
}.

(** A tiktoken [Encoding]: [encode] and [decode]. *)
Record encoding := {
  enc_encode : string -> list Z;
  enc_decode : list Z -> string;
}.

Definition nl : string := String.String "010"%char "".

Definition opt_eqb (o : option string) (x : string) : bool :=
  match o with Some y => String.eqb y x | None => false end.

(** [MemoryRetrievalService.format_memory_item]. *)
Definition format_memory_item (m : memory_item) (prefix : string) : string :=
  let content := default "N/A"%string (mi_content m) in
  let formatted := (prefix ++ content)%string in
  match mi_certainty m with
  | Some c => (formatted ++ " (relevance: " ++ c ++ ")")%string
  | None => formatted
  end.

Definition memory_prefix (m : memory_item) : string :=
  ("[Past " ++ (if opt_eqb (mi_type m) "message" then "message" else "summary")
   ++ " by "
   ++ (if opt_eqb (mi_sender m) "user" then "User"
       else if opt_eqb (mi_sender m) "assistant" then "AI" else "System")
   ++ "]: ")%string.

Definition system_prompt : string :=
  ("Please answer the question considering the user's profile information, past conversations, and recent chat history. "
   ++ "Strive to provide consistent and personalized responses while utilizing the provided information.")%string.

Definition memory_heading : string :=
  (nl ++ "--- Related Past Conversations ---" ++ nl)%string.

Definition history_heading : string :=
  (nl ++ "--- Recent Chat History (Oldest First) ---" ++ nl)%string.

Definition memory_block (chat_memories : list memory_item) : string :=
  (memory_heading ++ String.concat nl
     (map (fun m => format_memory_item m (memory_prefix m)) chat_memories))%string.

Definition history_line (msg : message) : string :=
  ((if String.eqb (msg_sender_type msg) "user" then "User" else "AI")
   ++ ": " ++ msg_content msg)%string.

(** [history_items]: one line per message of [reversed(buffer)] that is
    not deleted. *)
Definition history_items (buffer : list message) : list string :=
  map history_line (List.filter (fun m => negb (msg_deleted m)) (rev buffer)).

Definition history_block (buffer : list message) : string :=
  (history_heading ++ String.concat nl (history_items buffer))%string.

Definition query_suffix (user_query : string) : string :=
  (nl ++ "User: " ++ user_query ++ nl ++ "AI:")%string.

(** [prompt_parts] as [_create_memory_prompt] builds it. *)
Definition prompt_parts (buffer : list message) (chat_memories : list memory_item)
    (user_query : string) : list string :=
  [system_prompt]
  ++ (match chat_memories with [] => [] | _ => [memory_block chat_memories] end)
  ++ (match buffer with [] => [] | _ => [history_block buffer] end)
  ++ [query_suffix user_query].

(** The number of elements Python's slice [xs[:n]] keeps of a sequence
    of length [len]: [n] when [n >= 0], and [len + n] (at least 0) when
    [n] is negative. *)
Definition slice_end (n : Z) (len : nat) : nat :=
  if Z.leb 0 n then Z.to_nat n else Z.to_nat (Z.of_nat len + n).

Section Tokens.
(** [TIKTOKEN_ENCODING]: [None] when tiktoken failed to initialise. *)
Variable TIKTOKEN_ENCODING : option encoding.

(** [_estimate_tokens]. *)
Definition estimate_tokens (text : string) : Z :=
  match TIKTOKEN_ENCODING with
  | Some enc => Z.of_nat (length (enc_encode enc text))
  | None => Z.of_nat (String.length text) / 4
  end.

(** [_truncate_text_to_tokens]; the slices [tokens[:max_tokens]] and
    [text[:max_chars]] are taken with [slice_end]. *)
Definition truncate_text_to_tokens (text : string) (max_tokens : Z) : string :=
  match TIKTOKEN_ENCODING with
  | Some enc =>
      let tokens := enc_encode enc text in
      if Z.leb (Z.of_nat (length tokens)) max_tokens then text
      else (enc_decode enc (firstn (slice_end max_tokens (length tokens)) tokens)
            ++ "...")%string
  | None =>
      let char_per_token := 4 in
      let max_chars := max_tokens * char_per_token in
      if Z.leb (Z.of_nat (String.length text)) max_chars then text
      else (substring 0 (slice_end max_chars (String.length text)) text ++ "...")%string
  end.

Definition max_tokens : Z := 8192.

(** [_apply_token_limit]; [prompt_parts[0]], [prompt_parts[-1]] and
    [prompt_parts[1:-1]]. *)
Definition apply_token_limit (full_prompt : string) (parts : list string) : string :=
  let estimated_tokens := estimate_tokens full_prompt in
  if Z.ltb max_tokens estimated_tokens then
    let first := nth 0 parts ""%string in
    let final := List.last parts ""%string in
    let required := (first ++ final)%string in
    let remain_tokens := max_tokens - estimate_tokens required in
    let middle_parts := removelast (tl parts) in
    match middle_parts with
    | [] => full_prompt
    | _ =>
        let per_part := Z.max (remain_tokens / Z.of_nat (length middle_parts)) 1 in
        let truncated := map (fun p => truncate_text_to_tokens p per_part) middle_parts in
        (first ++ nl ++ String.concat nl truncated ++ final)%string
    end
  else full_prompt.

(** [_create_memory_prompt]. *)
Definition create_memory_prompt (buffer : list message)
    (chat_memories : list memory_item) (user_query : string) : string :=
  let parts := prompt_parts buffer chat_memories user_query in
  let full_prompt := String.concat nl parts in
  apply_token_limit full_prompt parts.
End Tokens.

(** [MessageProcessor.get_latest_messages]: the repository rows (newest
    first, [find_latest_by_chat_id]) re-sorted by [created_at]
    ascending with Python's stable [sorted]. *)
Definition get_latest_messages (latest_messages : list message) : list message :=
  ChatStore.sort_by msg_created_at latest_messages.

End PromptBuilder.

(* ------------------------------------------------------------------ *)
(** ** Prompt builder proofs *)
Module PromptBuilderProofs.
Import PromptBuilder.

Lemma str_app_cons x (a b : string) :
  (String.String x a ++ b)%string = String.String x (a ++ b)%string.
Proof. reflexivity. Qed.

Lemma str_app_assoc (a b c : string) : ((a ++ b) ++ c = a ++ (b ++ c))%string.
Proof.
  induction a as [|x a IH]; [reflexivity|]. rewrite !str_app_cons. now rewrite IH.
Qed.

Lemma str_length_app (a b : string) :
  String.length (a ++ b) = (String.length a + String.length b)%nat.
Proof.
  induction a as [|x a IH]; [reflexivity|]. rewrite str_app_cons. simpl. now rewrite IH.
Qed.

Lemma concat_cons2 sep (x z : string) (l : list string) :
  String.concat sep (x :: z :: l) = (x ++ sep ++ String.concat sep (z :: l))%string.
Proof. reflexivity. Qed.

Lemma str_app_nil (a : string) : (a ++ "")%string = a.
Proof. induction a as [|x a IH]; [reflexivity|]. rewrite str_app_cons. now rewrite IH. Qed.

Lemma filter_all_false {X} (p : X -> bool) (l : list X) :
  (forall x, In x l -> p x = false) -> List.filter p l = [].
Proof.
  induction l as [|x l IH]; intros H; [reflexivity|]. simpl.
  rewrite (H x (or_introl eq_refl)). apply IH. intros y Hy. apply H. now right.
Qed.

(** [String.concat sep] on a list with a first and a last element. *)
Lemma concat_first_last sep (x y : string) (mid : list string) :
  exists m, String.concat sep (x :: mid ++ [y]) = (x ++ m ++ y)%string.
Proof.
  revert x. induction mid as [|z mid IH]; intros x.
  - exists sep. reflexivity.
  - destruct (IH z) as [m Hm].
    exists (sep ++ z ++ m)%string.
    rewrite <- app_comm_cons, concat_cons2, Hm, !str_app_assoc. reflexivity.
Qed.

Lemma prompt_parts_shape b mems q :
  exists middle, prompt_parts b mems q = system_prompt :: middle ++ [query_suffix q].
Proof.
  unfold prompt_parts.
  destruct mems as [|m mems]; destruct b as [|x b].
  - exists []. reflexivity.
  - exists [history_block (x :: b)]. reflexivity.
  - exists [memory_block (m :: mems)]. reflexivity.
  - exists [memory_block (m :: mems); history_block (x :: b)]. reflexivity.
Qed.

Lemma removelast_tl_shape {X} (x y : X) (middle : list X) :
  removelast (tl (x :: middle ++ [y])) = middle.
Proof. simpl. apply removelast_last. Qed.

Lemma last_shape {X} (x y d : X) (middle : list X) :
  List.last (x :: middle ++ [y]) d = y.
Proof. rewrite app_comm_cons. apply last_last. Qed.

(** Whatever the buffer, memories and query, the built prompt starts
    with the system instruction and ends with the query suffix. *)
Lemma prompt_keeps_system_and_query enc b mems q :
  exists mid, create_memory_prompt enc b mems q = (system_prompt ++ mid ++ query_suffix q)%string.
Proof.
  unfold create_memory_prompt.
  destruct (prompt_parts_shape b mems q) as [middle ->].
  unfold apply_token_limit.
  destruct (Z.ltb max_tokens _).
  - rewrite removelast_tl_shape, last_shape. simpl nth.
    destruct middle as [|p middle].
    + apply concat_first_last.
    + exists (nl ++ String.concat nl (map (fun p0 => truncate_text_to_tokens enc p0
               (Z.max ((max_tokens - estimate_tokens enc (system_prompt ++ query_suffix q))
                       / Z.of_nat (length (p :: middle))) 1)) (p :: middle)))%string.
      rewrite !str_app_assoc. reflexivity.
  - apply concat_first_last.
Qed.

Lemma substring0_app (a b : string) : String.substring 0 (String.length a) (a ++ b) = a.
Proof.
  induction a as [|c a IH]; simpl; [now destruct b|]. now rewrite IH.
Qed.

Lemma substring0_length n (s : string) :
  (n <= String.length s)%nat -> String.length (String.substring 0 n s) = n.
Proof.
  revert n. induction s as [|c s IH]; intros n Hn; destruct n as [|n]; simpl in *;
    try reflexivity; try lia.
  rewrite IH; [reflexivity|lia].
Qed.

Lemma substring0_prefix n (s : string) :
  exists rest, s = (String.substring 0 n s ++ rest)%string.
Proof.
  revert n. induction s as [|c s IH]; intros n; destruct n as [|n]; simpl.
  - exists ""%string. reflexivity.
  - exists ""%string. reflexivity.
  - exists (String.String c s). reflexivity.
  - destruct (IH n) as [rest Hr]. exists rest. rewrite str_app_cons. now rewrite <- Hr.
Qed.

Lemma slice_end_nonneg n len : 0 <= n -> slice_end n len = Z.to_nat n.
Proof. intros H. unfold slice_end. now rewrite (proj2 (Z.leb_le 0 n) H). Qed.

(** [_truncate_text_to_tokens] with a budget of at least one token:
    a text within the budget (at most [max_tokens] tokens with
    tiktoken, at most [4 * max_tokens] characters without) is returned
    as it is; a longer one is cut to its first [max_tokens] tokens, or
    its first [4 * max_tokens] characters, followed by "...". *)
Lemma truncate_cases enc p k :
  1 <= k ->
  match enc with
  | Some en =>
      (Z.of_nat (length (enc_encode en p)) <= k -> truncate_text_to_tokens enc p k = p)
      /\ (k < Z.of_nat (length (enc_encode en p)) ->
          truncate_text_to_tokens enc p k
          = (enc_decode en (firstn (Z.to_nat k) (enc_encode en p)) ++ "...")%string)
  | None =>
      (Z.of_nat (String.length p) <= k * 4 -> truncate_text_to_tokens enc p k = p)
      /\ (k * 4 < Z.of_nat (String.length p) ->
          exists pre rest, p = (pre ++ rest)%string
                           /\ Z.of_nat (String.length pre) = k * 4
                           /\ truncate_text_to_tokens enc p k = (pre ++ "...")%string)
  end.
Proof.
  intros Hk. destruct enc as [en|]; unfold truncate_text_to_tokens.
  - rewrite slice_end_nonneg by lia. split; intros H.
    + destruct (Z.leb_spec (Z.of_nat (length (enc_encode en p))) k); [reflexivity|lia].
    + destruct (Z.leb_spec (Z.of_nat (length (enc_encode en p))) k); [lia|reflexivity].
  - rewrite slice_end_nonneg by lia. split; intros H.
    + destruct (Z.leb_spec (Z.of_nat (String.length p)) (k * 4)); [reflexivity|lia].
    + destruct (Z.leb_spec (Z.of_nat (String.length p)) (k * 4)); [lia|].
      destruct (substring0_prefix (Z.to_nat (k * 4)) p) as [rest Hr].
      exists (String.substring 0 (Z.to_nat (k * 4)) p), rest.
      split; [exact Hr|]. split; [|reflexivity].
      rewrite substring0_length by lia. lia.
Qed.

(** C2 (amended): Prompt Builder token budget. If the token estimate
    of the composed concatenation is within 8192, the prompt is that
    concatenation unchanged. If it is over, the parts are the system
    instruction, the middle blocks (memories, recent history) and the
    query suffix ["\nUser: {query}\nAI:"]; the prompt is the system
    instruction, a newline, the middle blocks each passed through
    [_truncate_text_to_tokens] with [per_part = max((8192 - estimate(
    system + suffix)) // len(middle), 1)] and joined by newlines, and the
    suffix, the first and the last verbatim (with no middle block the
    prompt is returned unchanged). A middle block within [per_part]
    (in tokens with tiktoken, in [4 * per_part] characters without) is
    kept verbatim; a longer one is cut to [per_part] tokens, or
    [4 * per_part] characters, followed by "...". No bound on the
    estimate of the over-budget prompt is enforced. *)
Theorem token_limit_keeps_instruction_and_query enc b mems q :
  let parts := prompt_parts b mems q in
  let full := String.concat nl parts in
  (estimate_tokens enc full <= max_tokens -> create_memory_prompt enc b mems q = full)
  /\ (max_tokens < estimate_tokens enc full ->
      exists middle, parts = system_prompt :: middle ++ [query_suffix q]
      /\ (middle = [] -> create_memory_prompt enc b mems q = full)
      /\ let per_part := Z.max ((max_tokens - estimate_tokens enc (system_prompt ++ query_suffix q))
                                / Z.of_nat (length middle)) 1 in
         (middle <> [] ->
          create_memory_prompt enc b mems q
          = (system_prompt ++ nl
             ++ String.concat nl (map (fun p => truncate_text_to_tokens enc p per_part) middle)
             ++ query_suffix q)%string)
         /\ forall p, In p middle ->
            match enc with
            | Some en =>
                (Z.of_nat (length (enc_encode en p)) <= per_part ->
                 truncate_text_to_tokens enc p per_part = p)
                /\ (per_part < Z.of_nat (length (enc_encode en p)) ->
                    truncate_text_to_tokens enc p per_part
                    = (enc_decode en (firstn (Z.to_nat per_part) (enc_encode en p)) ++ "...")%string)
            | None =>
                (Z.of_nat (String.length p) <= per_part * 4 ->
                 truncate_text_to_tokens enc p per_part = p)
                /\ (per_part * 4 < Z.of_nat (String.length p) ->
                    exists pre rest, p = (pre ++ rest)%string
                                     /\ Z.of_nat (String.length pre) = per_part * 4
                                     /\ truncate_text_to_tokens enc p per_part
                                        = (pre ++ "...")%string)
            end).
Proof.
  intros parts full. split.
  - intros H. unfold create_memory_prompt, apply_token_limit.
    replace (Z.ltb _ _) with false; [reflexivity|].
    symmetry. apply Z.ltb_ge. exact H.
  - intros H. destruct (prompt_parts_shape b mems q) as [middle Hp].
    exists middle. split; [exact Hp|].
    assert (Hlt : Z.ltb max_tokens (estimate_tokens enc (String.concat nl (prompt_parts b mems q)))
                  = true) by (apply Z.ltb_lt; exact H).
    unfold full, parts in *. unfold create_memory_prompt, apply_token_limit.
    rewrite Hlt. rewrite Hp. rewrite removelast_tl_shape, last_shape. simpl nth.
    split; [intros ->; reflexivity|]. cbv zeta. split.
    + intros Hne. destruct middle as [|p middle]; [contradiction|reflexivity].
    + intros p _. apply truncate_cases. lia.
Qed.

Fixpoint rep (n : nat) (c : ascii) : string :=
  match n with O => EmptyString | S n' => String.String c (rep n' c) end.

(** Sample messages: [m1] is older than [m2]. *)
Definition m1 : message :=
  {| msg_sender_type := "user"; msg_content := "a"; msg_created_at := 1; msg_deleted := false |}.
Definition m2 : message :=
  {| msg_sender_type := "assistant"; msg_content := "b"; msg_created_at := 2; msg_deleted := false |}.

Example latest_sorted : get_latest_messages [m2; m1] = [m1; m2].
Proof. reflexivity. Qed.

Example small_prompt_unchanged :
  create_memory_prompt None [m1] [] "q"
  = String.concat nl (prompt_parts [m1] [] "q").
Proof. vm_compute. reflexivity. Qed.

(** A message of 40000 characters: its history block alone exceeds the
    budget. *)
Definition m_long : message :=
  {| msg_sender_type := "user"; msg_content := rep (Z.to_nat 40000) "a"%char;
     msg_created_at := 1; msg_deleted := false |}.

(** Witness for C2: a one-message prompt within budget, and an
    over-budget prompt whose only middle block, the history of
    [m_long], is cut to its share. *)
Lemma token_limit_keeps_instruction_and_query_witness :
  create_memory_prompt None [m1] [] "q" = String.concat nl (prompt_parts [m1] [] "q")
  /\ create_memory_prompt None [m_long] [] "q"
     = (system_prompt ++ nl
        ++ String.concat nl
             [truncate_text_to_tokens None (history_block [m_long])
                (Z.max ((max_tokens - estimate_tokens None (system_prompt ++ query_suffix "q"))
                        / Z.of_nat 1) 1)]
        ++ query_suffix "q")%string.
Proof.
  split.
  - apply (proj1 (token_limit_keeps_instruction_and_query None [m1] [] "q")).
    vm_compute. discriminate.
  - destruct (proj2 (token_limit_keeps_instruction_and_query None [m_long] [] "q"))
      as (middle & Hp & _ & H & _).
    + vm_compute. reflexivity.
    + simpl in Hp. injection Hp as Hp.
      change ([history_block [m_long]] ++ [query_suffix "q"] = middle ++ [query_suffix "q"]) in Hp.
      apply app_inj_tail in Hp as [Hp _]. subst middle.
      apply H. discriminate.
Defined.

(** C2 as stated fails when tiktoken is unavailable and the query alone
    exceeds the budget: with an empty buffer and no memories, a query of
    33000 characters gives a prompt over budget that is returned as it is,
    so its estimate stays over 8192. *)
Lemma token_budget_counterexample :
  let q := rep (Z.to_nat 33000) "a"%char in
  max_tokens < estimate_tokens None (String.concat nl (prompt_parts [] [] q))
  /\ max_tokens < estimate_tokens None (create_memory_prompt None [] [] q).
Proof. vm_compute. split; reflexivity. Qed.

(** C5 (code bug): the repository returns [m2; m1] (newest first),
    [get_latest_messages] re-sorts them to [m1; m2] (oldest first), and
    [_create_memory_prompt] walks [reversed(buffer)]: the block headed
    "Oldest First" lists the newer [m2] before the older [m1]. *)
Theorem recent_history_newest_first :
  let buffer := get_latest_messages [m2; m1] in
  buffer = [m1; m2]
  /\ msg_created_at m1 < msg_created_at m2
  /\ history_items buffer = ["AI: b"%string; "User: a"%string]
  /\ create_memory_prompt None buffer [] "q"
     = String.concat nl [system_prompt;
                        (history_heading ++ "AI: b" ++ nl ++ "User: a")%string;
                        query_suffix "q"].
Proof. vm_compute. repeat split; reflexivity. Qed.

Lemma history_items_spec (buffer : list message) :
  history_items buffer
  = rev (map history_line (List.filter (fun m => negb (msg_deleted m)) buffer)).
Proof.
  unfold history_items. rewrite List.filter_rev. apply map_rev.
Qed.

(** C10: Deleted messages are left out of the recent-history block. When
    the buffer is non-empty, the block is one of the prompt parts; it is
    the heading followed by one line per non-deleted message of the
    buffer (the lines are a permutation of those messages' lines, so a
    deleted message contributes none); over a buffer of deleted messages
    only, the block is the bare heading. *)
Theorem history_block_skips_deleted (buffer : list message) mems q :
  buffer <> [] ->
  In (history_block buffer) (prompt_parts buffer mems q)
  /\ history_block buffer = (history_heading ++ String.concat nl (history_items buffer))%string
  /\ Permutation (history_items buffer)
       (map history_line (List.filter (fun m => negb (msg_deleted m)) buffer))
  /\ ((forall m, In m buffer -> msg_deleted m = true) -> history_block buffer = history_heading).
Proof.
  intros Hne. split; [|split; [reflexivity|split]].
  - unfold prompt_parts. destruct buffer as [|x b]; [congruence|].
    apply in_or_app. right. apply in_or_app. right. left. reflexivity.
  - rewrite history_items_spec. apply Permutation_sym, Permutation_rev.
  - intros Hall. unfold history_block. rewrite history_items_spec.
    replace (List.filter (fun m => negb (msg_deleted m)) buffer) with (@nil message).
    + apply str_app_nil.
    + symmetry. apply filter_all_false. intros m Hm. rewrite (Hall m Hm). reflexivity.
Qed.

(** Witness for C10: a buffer of one deleted message. *)
Lemma history_block_skips_deleted_witness :
  let dm := {| msg_sender_type := "user"; msg_content := "gone";
               msg_created_at := 3; msg_deleted := true |} in
  history_block [dm] = history_heading
  /\ In (history_block [dm; m1]) (prompt_parts [dm; m1] [] "q").
Proof.
  intros dm. split.
  - apply (proj2 (proj2 (proj2 (history_block_skips_deleted [dm] [] "q" ltac:(discriminate))))).
    intros m [<-|[]]. reflexivity.
  - apply (proj1 (history_block_skips_deleted [dm; m1] [] "q" ltac:(discriminate))).
Defined.
End PromptBuilderProofs.

(* ------------------------------------------------------------------ *)
(** ** Prompt composition with retrieval (prompt_builder_service.py) *)
Module PromptCompose.
Import PromptBuilder.

(** A result dict of [search_chat_memories] read through the keys of
    [_create_memory_prompt]: it carries its kind under ["memory_type"],
    so [mem.get('type')] is [None]; [certainty] prints
    [1.0 - distance] as [f"{certainty:.2f}"] does. *)
Definition to_memory_item (certainty : Z -> string) (r : ChatStore.result) : memory_item :=
  {| mi_type := None;
     mi_sender := Some (ChatStore.sender (ChatStore.res_props r));
     mi_content := Some (ChatStore.content (ChatStore.res_props r));
     mi_certainty := Some (certainty (ChatStore.res_distance r)) |}.

(** [PromptBuilderService.build_memory_prompt]: retrieval with the
    default limit, then [_create_memory_prompt]. *)
Definition build_memory_prompt (TIKTOKEN_ENCODING : option encoding)
    (certainty : Z -> string)
    (encode : string -> option (list Z))
    (search : string -> string -> list Z -> nat -> option (list ChatStore.result))
    (buffer : list message) (user_query uid cid : string) : string :=
  let chat_memories := ChatStore.search_relevant_memories encode search uid cid user_query None in
  create_memory_prompt TIKTOKEN_ENCODING buffer (map (to_memory_item certainty) chat_memories)
    user_query.

End PromptCompose.

(* ------------------------------------------------------------------ *)
(** ** Further prompt builder proofs *)
Module PromptExtra.
Import PromptBuilder PromptBuilderProofs PromptCompose.

Lemma perm_insert_by {X} (key : X -> Z) x l : Permutation (x :: l) (ChatStore.insert_by key x l).
Proof.
  induction l as [|y l IH]; simpl; [reflexivity|].
  destruct (Z.leb _ _); [reflexivity|].
  etransitivity; [apply perm_swap|]. now apply perm_skip.
Qed.

Lemma perm_sort_by {X} (key : X -> Z) l : Permutation l (ChatStore.sort_by key l).
Proof.
  induction l as [|x l IH]; simpl; [reflexivity|].
  etransitivity; [apply perm_skip, IH|apply perm_insert_by].
Qed.

(** Without tiktoken, [_truncate_text_to_tokens] with a budget
    [max_tokens >= 0] (the caller passes at least 1) returns the text
    when it has at most [4 * max_tokens] characters, and otherwise its
    first [4 * max_tokens] characters followed by "..."; truncating the
    result again changes nothing. *)
Theorem truncate_fallback_prefix_idempotent (text : string) (k : Z) :
  0 <= k ->
  let r := truncate_text_to_tokens None text k in
  (Z.of_nat (String.length text) <= k * 4 -> r = text)
  /\ (k * 4 < Z.of_nat (String.length text) ->
      exists pre rest, text = (pre ++ rest)%string /\ r = (pre ++ "...")%string
                       /\ Z.of_nat (String.length pre) = k * 4)
  /\ truncate_text_to_tokens None r k = r.
Proof.
  intros Hk r. unfold r, truncate_text_to_tokens.
  rewrite !(slice_end_nonneg (k * 4)) by lia.
  destruct (Z.leb_spec (Z.of_nat (String.length text)) (k * 4)) as [Hle|Hgt].
  - split; [reflexivity|]. split; [intros; lia|].
    destruct (Z.leb_spec (Z.of_nat (String.length text)) (k * 4)); [reflexivity|lia].
  - assert (Hlen : String.length (String.substring 0 (Z.to_nat (k * 4)) text) = Z.to_nat (k * 4))
      by (apply substring0_length; lia).
    split; [intros; lia|]. split.
    + intros _. destruct (substring0_prefix (Z.to_nat (k * 4)) text) as [rest Hr].
      exists (String.substring 0 (Z.to_nat (k * 4)) text), rest.
      split; [exact Hr|]. split; [reflexivity|]. rewrite Hlen. lia.
    + rewrite str_length_app, Hlen. simpl.
      destruct (Z.leb_spec (Z.of_nat (Z.to_nat (k * 4) + 3)) (k * 4)); [lia|].
      rewrite <- Hlen at 1. now rewrite substring0_app.
Qed.

(** [get_latest_messages] returns the rows it was given, reordered by
    increasing [created_at]. *)
Theorem latest_messages_sorted_permutation (rows : list message) :
  Sorted (fun a b => msg_created_at a <= msg_created_at b) (get_latest_messages rows)
  /\ Permutation rows (get_latest_messages rows).
Proof.
  split; [apply StoreExtra.sort_by_sorted|apply perm_sort_by].
Qed.

(** Every retrieved memory is labelled a past summary in the prompt,
    also when it is a [message] record: the search results carry the
    kind under ["memory_type"] while the prompt reads ["type"]. The line
    shows the sender, the content and the certainty. *)
Theorem retrieved_memory_line (certainty : Z -> string) (r : ChatStore.result) :
  let m := to_memory_item certainty r in
  format_memory_item m (memory_prefix m)
  = ("[Past summary by "
     ++ (if String.eqb (ChatStore.sender (ChatStore.res_props r)) "user" then "User"
         else if String.eqb (ChatStore.sender (ChatStore.res_props r)) "assistant" then "AI"
         else "System")
     ++ "]: " ++ ChatStore.content (ChatStore.res_props r)
     ++ " (relevance: " ++ certainty (ChatStore.res_distance r) ++ ")")%string.
Proof.
  intros m. unfold m, format_memory_item, memory_prefix, to_memory_item. simpl.
  rewrite !str_app_assoc. reflexivity.
Qed.

(** [build_memory_prompt]: when vectorizing the query or the search
    raises, the prompt is the one built without memories (no memory
    block); when both succeed on the store, the prompt is built from at
    most three memories, all of the queried tenant and conversation. *)
Theorem build_memory_prompt_cases enc certainty encode search dist s buffer q uid cid :
  (encode q = None ->
   build_memory_prompt enc certainty encode search buffer q uid cid
   = create_memory_prompt enc buffer [] q)
  /\ (forall qv, encode q = Some qv -> search uid cid qv 3%nat = None ->
      build_memory_prompt enc certainty encode search buffer q uid cid
      = create_memory_prompt enc buffer [] q)
  /\ (forall qv, encode q = Some qv ->
      exists rs, build_memory_prompt enc certainty encode (ChatStore.store_search dist s) buffer q uid cid
                 = create_memory_prompt enc buffer (map (to_memory_item certainty) rs) q
                 /\ (length rs <= 3)%nat
                 /\ forall r, In r rs -> ChatStore.user_id (ChatStore.res_props r) = uid
                                         /\ ChatStore.chat_id (ChatStore.res_props r) = cid).
Proof.
  unfold build_memory_prompt, ChatStore.search_relevant_memories. split; [|split].
  - intros H. now rewrite H.
  - intros qv H Hs. now rewrite H, Hs.
  - intros qv H. rewrite H. unfold ChatStore.store_search.
    eexists. split; [reflexivity|]. split.
    + unfold ChatStore.search_chat_memories. rewrite length_map, length_firstn. lia.
    + intros r Hr. unfold ChatStore.search_chat_memories in Hr.
      apply in_map_iff in Hr as (o & <- & Ho). simpl.
      apply ChatStoreProofs.in_firstn, ChatStoreProofs.in_sort_by, filter_In in Ho as [_ Hf].
      unfold ChatStore.search_filter in Hf.
      apply andb_prop in Hf as [Hf _]. apply andb_prop in Hf as [Hu Hc].
      apply String.eqb_eq in Hu, Hc. now split.
Qed.

(** Witness: a failing encoder, a failing search, and a store with one
    message of tenant "bob". *)
Lemma build_memory_prompt_cases_witness :
  let s := fst (ChatStore.add_memory ChatStore.empty_store [1]
                  (ChatStoreProofs.sample_props "bob") "bob") in
  build_memory_prompt None (fun _ => "1.00"%string) (fun _ => None)
    (ChatStore.store_search (fun _ _ => 0) s) [m1] "q" "bob" "c1"
  = create_memory_prompt None [m1] [] "q"
  /\ build_memory_prompt None (fun _ => "1.00"%string) (fun _ => Some [1])
       (fun _ _ _ _ => None) [m1] "q" "bob" "c1"
     = create_memory_prompt None [m1] [] "q"
  /\ exists rs, build_memory_prompt None (fun _ => "1.00"%string) (fun _ => Some [1])
                  (ChatStore.store_search (fun _ _ => 0) s) [m1] "q" "bob" "c1"
                = create_memory_prompt None [m1] (map (to_memory_item (fun _ => "1.00"%string)) rs) "q"
                /\ (length rs <= 3)%nat
                /\ forall r, In r rs -> ChatStore.user_id (ChatStore.res_props r) = "bob"%string
                                        /\ ChatStore.chat_id (ChatStore.res_props r) = "c1"%string.
Proof.
  intros s. refine (conj _ (conj _ _)).
  - apply (proj1 (build_memory_prompt_cases None (fun _ => "1.00"%string) (fun _ => None)
             (ChatStore.store_search (fun _ _ => 0) s) (fun _ _ => 0) s [m1] "q" "bob" "c1")).
    reflexivity.
  - apply (proj1 (proj2 (build_memory_prompt_cases None (fun _ => "1.00"%string)
             (fun _ => Some [1]) (fun _ _ _ _ => None) (fun _ _ => 0) s [m1] "q" "bob" "c1")) [1]);
      reflexivity.
  - apply (proj2 (proj2 (build_memory_prompt_cases None (fun _ => "1.00"%string)
             (fun _ => Some [1]) (fun _ _ _ _ => None) (fun _ _ => 0) s [m1] "q" "bob" "c1")) [1]).
    reflexivity.
Defined.

(** Witness: a 10-character text with a budget of 2 tokens. *)
Lemma truncate_fallback_prefix_idempotent_witness :
  let r := truncate_text_to_tokens None "abcdefghij" 2 in
  (Z.of_nat (String.length "abcdefghij") <= 2 * 4 -> r = "abcdefghij"%string)
  /\ (2 * 4 < Z.of_nat (String.length "abcdefghij") ->
      exists pre rest, "abcdefghij"%string = (pre ++ rest)%string /\ r = (pre ++ "...")%string
                       /\ Z.of_nat (String.length pre) = 2 * 4)
  /\ truncate_text_to_tokens None r 2 = r.
Proof. apply truncate_fallback_prefix_idempotent. lia. Defined.

End PromptExtra.

(* ------------------------------------------------------------------ *)
(** ** book_annotation_store.py *)
Module AnnotationStore.

(** The properties of a BookAnnotation object. *)
Record ann_props := {
  annotation_id : string;
  book_id : string;
  book_title : string;
  content : string;
  created_at : option Z;
  notes : option string;
  user_id : string;
}.

Record ann_object := {
  uuid : nat;
  vector : list Z;
  props : ann_props;
}.

(** The BookAnnotation collection: one partition per tenant. *)
Abbreviation ann_store := (gmap string (list ann_object)).

Definition partition (s : ann_store) (t : string) : list ann_object :=
  default [] (s !! t).

Inductive log_line :=
| Info (msg : string)
| Warning (msg : string)
| Error (msg : string).

(** Outcome of a store method: it returns, or raises to the caller. *)
Inductive outcome := Returned | Raised.

(** [collection_with_tenant.query.fetch_objects(filters=
    Filter.by_property("annotation_id").equal(annotation_id))]. *)
Definition fetch_by_annotation_id (s : ann_store) (uid aid : string)
  : list ann_object :=
  List.filter (fun o => String.eqb (annotation_id (props o)) aid) (partition s uid).

(** [collection_with_tenant.data.update(uuid, properties, vector)]. *)
Definition data_update (s : ann_store) (uid : string) (id : nat)
    (p : ann_props) (v : list Z) : ann_store :=
  <[uid := map (fun o => if Nat.eqb (uuid o) id
                         then {| uuid := uuid o; vector := v; props := p |} else o)
               (partition s uid)]> s.

(** One call of the body of [BookAnnotationStore.update_annotation];
    [store_ok] says whether the query reaches the store (otherwise it
    raises, the error is logged and re-raised). *)
Definition update_annotation_once (store_ok : bool) (s : ann_store)
    (uid aid : string) (p : ann_props) (v : list Z)
    : outcome * ann_store * list log_line :=
  if store_ok then
    match fetch_by_annotation_id s uid aid with
    | o :: _ =>
        (Returned, data_update s uid (uuid o) p v,
         [Info ("Updated annotation " ++ aid ++ " for user " ++ uid)%string])
    | [] =>
        (Returned, s, [Warning ("Annotation " ++ aid ++ " not found for user " ++ uid)%string])
    end
  else (Raised, s, [Error "Annotation update error"%string]).

(** [str(n)] of a natural number, in decimal. *)
Fixpoint string_of_nat_go (fuel n : nat) (acc : string) : string :=
  match fuel with
  | O => acc
  | S fuel' =>
      let acc' := String (Ascii.ascii_of_nat (48 + Nat.modulo n 10)) acc in
      match Nat.div n 10 with
      | O => acc'
      | q => string_of_nat_go fuel' q acc'
      end
  end.

Definition string_of_nat (n : nat) : string := string_of_nat_go (S n) n "".

(** The lines [retry_on_error]'s wrapper logs after a failed attempt:
    [logger.warning(f"Operation failed, retrying in {delay} seconds
    ({retries}/{max_retries}): {str(e)}")] before another attempt, and
    [logger.error(f"Maximum retry count ({max_retries}) reached:
    {str(e)}")] after the last one. As for the bodies' lines, the
    exception text after the colon is left out. *)
Definition retry_warning (delay retries max_retries : nat) : log_line :=
  Warning ("Operation failed, retrying in " ++ string_of_nat delay ++ " seconds ("
           ++ string_of_nat retries ++ "/" ++ string_of_nat max_retries ++ ")")%string.

Definition max_retry_error (max_retries : nat) : log_line :=
  Error ("Maximum retry count (" ++ string_of_nat max_retries ++ ") reached")%string.

(** [@retry_on_error(max_retries=2)] around it (initial delay 1,
    backoff factor 2); the sleeps themselves are left out. [store_ok k]
    tells whether the [k]-th attempt reaches the store. *)
Fixpoint update_retry (fuel retries delay : nat) (store_ok : nat -> bool)
    (s : ann_store) (uid aid : string) (p : ann_props) (v : list Z)
    : outcome * ann_store * list log_line :=
  match fuel with
  | O => (Raised, s, [])
  | S fuel' =>
      match update_annotation_once (store_ok retries) s uid aid p v with
      | (Raised, s1, l1) =>
          if Nat.ltb 2 (S retries) then (Raised, s1, l1 ++ [max_retry_error 2])
          else let '(r, s2, l2) :=
                 update_retry fuel' (S retries) (delay * 2)%nat store_ok s1 uid aid p v in
               (r, s2, l1 ++ retry_warning delay (S retries) 2 :: l2)
      | res => res
      end
  end.

Definition update_annotation (store_ok : nat -> bool) (s : ann_store)
    (uid aid : string) (p : ann_props) (v : list Z)
    : outcome * ann_store * list log_line :=
  update_retry 3 0 1 store_ok s uid aid p v.

End AnnotationStore.

(* ------------------------------------------------------------------ *)
(** ** Annotation store proofs *)
Module AnnotationStoreProofs.
Import AnnotationStore.

Definition sample_ann (aid : string) : ann_props :=
  {| annotation_id := aid; book_id := "b1"; book_title := "Title"; content := "text";
     created_at := None; notes := None; user_id := "alice" |}.

Definition sample_store : ann_store :=
  <["alice" := [{| uuid := 0; vector := [1]; props := sample_ann "a1" |}]]> ∅.

Example update_known :
  update_annotation (fun _ => true) sample_store "alice" "a1" (sample_ann "a1") [2]
  = (Returned, <["alice" := [{| uuid := 0; vector := [2]; props := sample_ann "a1" |}]]> ∅,
     [Info "Updated annotation a1 for user alice"]).
Proof. vm_compute. reflexivity. Qed.

(** C9: Annotation update with an unknown key is a logged no-op. When
    the store is reachable and no object of the tenant carries
    [annotation_id], [update_annotation] returns normally, performs no
    write (the store is unchanged) and logs exactly one warning. *)
Theorem update_unknown_annotation_noop store_ok s uid aid p v :
  store_ok 0%nat = true ->
  (forall o, In o (partition s uid) -> annotation_id (props o) <> aid) ->
  update_annotation store_ok s uid aid p v
  = (Returned, s, [Warning ("Annotation " ++ aid ++ " not found for user " ++ uid)%string]).
Proof.
  intros Hok Hnone. unfold update_annotation. simpl.
  unfold update_annotation_once. rewrite Hok.
  replace (fetch_by_annotation_id s uid aid) with (@nil ann_object); [reflexivity|].
  unfold fetch_by_annotation_id.
  induction (partition s uid) as [|o l IH]; [reflexivity|]. simpl.
  destruct (String.eqb_spec (annotation_id (props o)) aid) as [He|He].
  - exfalso. apply (Hnone o); [now left|exact He].
  - apply IH. intros o' Ho'. apply Hnone. now right.
Qed.

(** Witness for C9: key "zz" is unknown for tenant "alice". *)
Lemma update_unknown_annotation_noop_witness :
  update_annotation (fun _ => true) sample_store "alice" "zz" (sample_ann "zz") [2]
  = (Returned, sample_store, [Warning "Annotation zz not found for user alice"]).
Proof.
  apply update_unknown_annotation_noop; [reflexivity|].
  intros o Ho. unfold sample_store, partition in Ho. rewrite lookup_insert_eq in Ho.
  simpl in Ho. destruct Ho as [<-|[]]. simpl. discriminate.
Defined.
End AnnotationStoreProofs.

(* ------------------------------------------------------------------ *)
(** ** Further annotation store operations (book_annotation_store.py,
    highlight_searcher.py) *)
Module AnnotationOps.
Import AnnotationStore.

(** [@retry_on_error(max_retries=2)] around a method body (initial
    delay 1, backoff factor 2): the body is run again after each
    exception, with the wrapper's warning logged, until the third
    attempt fails and the wrapper logs its error; the sleeps themselves
    are left out. [store_ok k] tells whether the [k]-th attempt reaches
    the store. *)
Fixpoint retry_ann (fuel retries delay : nat)
    (body : bool -> ann_store -> outcome * ann_store * list log_line)
    (store_ok : nat -> bool) (s : ann_store) : outcome * ann_store * list log_line :=
  match fuel with
  | O => (Raised, s, [])
  | S fuel' =>
      match body (store_ok retries) s with
      | (Raised, s1, l1) =>
          if Nat.ltb 2 (S retries) then (Raised, s1, l1 ++ [max_retry_error 2])
          else let '(r, s2, l2) := retry_ann fuel' (S retries) (delay * 2)%nat body store_ok s1 in
               (r, s2, l1 ++ retry_warning delay (S retries) 2 :: l2)
      | res => res
      end
  end.

(** [collection_with_tenant.data.delete_many(where=...)]: the tenant's
    objects matching the filter are removed, the others kept in order;
    a tenant without a partition has nothing to delete. *)
Definition delete_many (s : ann_store) (uid : string) (matches : ann_object -> bool)
  : ann_store :=
  match s !! uid with
  | Some l => <[uid := List.filter (fun o => negb (matches o)) l]> s
  | None => s
  end.

(** The body of [BookAnnotationStore.delete_annotation]. *)
Definition delete_annotation_once (store_ok : bool) (s : ann_store) (uid aid : string)
  : outcome * ann_store * list log_line :=
  if store_ok then
    (Returned, delete_many s uid (fun o => String.eqb (annotation_id (props o)) aid),
     [Info ("Deleted annotation " ++ aid ++ " for user " ++ uid)%string])
  else (Raised, s, [Error "Annotation deletion error"%string]).

Definition delete_annotation (store_ok : nat -> bool) (s : ann_store) (uid aid : string)
  : outcome * ann_store * list log_line :=
  retry_ann 3 0 1 (fun ok s => delete_annotation_once ok s uid aid) store_ok s.

(** The body of [BookAnnotationStore.delete_book_annotations]. *)
Definition delete_book_annotations_once (store_ok : bool) (s : ann_store) (uid bid : string)
  : outcome * ann_store * list log_line :=
  if store_ok then
    (Returned, delete_many s uid (fun o => String.eqb (book_id (props o)) bid),
     [Info ("Deleted book annotations from vector DB for book_id: " ++ bid)%string])
  else (Raised, s, [Error "Error deleting book annotations from vector DB"%string]).

Definition delete_book_annotations (store_ok : nat -> bool) (s : ann_store) (uid bid : string)
  : outcome * ann_store * list log_line :=
  retry_ann 3 0 1 (fun ok s => delete_book_annotations_once ok s uid bid) store_ok s.

(** [BookAnnotationStore.add_annotation] when the insert succeeds:
    [data.insert] appends the object to the tenant's partition (created
    on first insert, [auto_tenant_creation]) under the uuid [id] the
    store assigns. *)
Definition add_annotation (s : ann_store) (v : list Z) (metadata : ann_props)
    (uid : string) (id : nat) : ann_store * nat :=
  (<[uid := partition s uid ++ [{| uuid := id; vector := v; props := metadata |}]]> s, id).

(** A result item of [search_highlights]: the properties, [item["id"]]
    and the distance. *)
Record ann_result := {
  ares_id : nat;
  ares_props : ann_props;
  ares_distance : Z;
}.

(** [collection.tenants.exists(user_id)] / [tenants.create(user_id)]. *)
Definition ensure_tenant (s : ann_store) (uid : string) : ann_store :=
  match s !! uid with
  | Some _ => s
  | None => <[uid := []]> s
  end.

Section Search.
Variable dist : list Z -> list Z -> Z.

(** [BookAnnotationStore.search_highlights]: creates the tenant when it
    is missing, then runs [near_vector] on the tenant's partition with
    the filter [book_id == book_id] and the limit. *)
Definition search_highlights (s : ann_store) (uid bid : string) (query_vector : list Z)
    (limit : nat) : ann_store * list ann_result :=
  let s1 := ensure_tenant s uid in
  let hits := List.filter (fun o => String.eqb (book_id (props o)) bid) (partition s1 uid) in
  let ranked := ChatStore.sort_by (fun o => dist (vector o) query_vector) hits in
  (s1, map (fun o => {| ares_id := uuid o; ares_props := props o;
                        ares_distance := dist (vector o) query_vector |})
           (firstn limit ranked)).
End Search.

(** One highlight line: [f"[Highlight]{content}"], with ["\n" + notes]
    when [h.get("notes")] is truthy (present and non-empty). *)
Definition format_highlight (p : ann_props) : string :=
  ("[Highlight]" ++ content p
   ++ match notes p with
      | Some n => if String.eqb n "" then "" else PromptBuilder.nl ++ n
      | None => ""
      end)%string.

(** [HighlightSearcher.search_relevant_highlights]; [encode] is
    [encode_text], called outside the [try] (its exception is not
    caught: [None]); [search] is [search_highlights], [None] for a
    raised exception. *)
Definition search_relevant_highlights
    (encode : string -> option (list Z))
    (search : string -> string -> list Z -> nat -> option (list ann_result))
    (question uid bid : string) (limit : nat) : option (list string) :=
  if String.eqb uid "" || String.eqb bid "" then Some ["No highlights found"%string]
  else
    match encode question with
    | None => None
    | Some query_vector =>
        match search uid bid query_vector limit with
        | None => Some ["Search error occurred"%string]
        | Some [] => Some ["No highlights found"%string]
        | Some highlights => Some (map (fun h => format_highlight (ares_props h)) highlights)
        end
    end.

(** The store's search as it is called when it does not raise. *)
Definition highlight_store_search (dist : list Z -> list Z -> Z) (s : ann_store)
  : string -> string -> list Z -> nat -> option (list ann_result) :=
  fun uid bid qv lim => Some (snd (search_highlights dist s uid bid qv lim)).

End AnnotationOps.

(* ------------------------------------------------------------------ *)
(** ** Proofs about the further annotation operations *)
Module AnnotationOpsProofs.
Import AnnotationStore AnnotationOps.

Lemma update_retry_as_retry_ann fuel retries delay store_ok s uid aid p v :
  update_retry fuel retries delay store_ok s uid aid p v
  = retry_ann fuel retries delay (fun ok s => update_annotation_once ok s uid aid p v) store_ok s.
Proof.
  revert retries delay s. induction fuel as [|fuel IH]; intros retries delay s; simpl; [reflexivity|].
  destruct (update_annotation_once _ _ _ _ _ _) as [[[|] s1] l1]; [reflexivity|].
  destruct (Nat.ltb 2 (S retries)); [reflexivity|]. now rewrite IH.
Qed.

Lemma retry_ann_spec body store_ok s err :
  (forall s, body false s = (Raised, s, [err])) ->
  (forall s, fst (fst (body true s)) = Returned) ->
  ((forall k, (k <= 2)%nat -> store_ok k = false) ->
   retry_ann 3 0 1 body store_ok s
   = (Raised, s, [err; retry_warning 1 1 2; err; retry_warning 2 2 2; err; max_retry_error 2]))
  /\ (forall k, (k <= 2)%nat -> (forall j, (j < k)%nat -> store_ok j = false) ->
      store_ok k = true ->
      retry_ann 3 0 1 body store_ok s
      = (Returned, snd (fst (body true s)),
         firstn (2 * k)%nat [err; retry_warning 1 1 2; err; retry_warning 2 2 2]
         ++ snd (body true s))).
Proof.
  intros Hfail Hok. split.
  - intros Hall. simpl.
    rewrite (Hall 0%nat), Hfail by lia. simpl.
    rewrite (Hall 1%nat), Hfail by lia. simpl.
    rewrite (Hall 2%nat), Hfail by lia. reflexivity.
  - intros k Hk Hbefore Hk'.
    destruct (body true s) as [[r s'] l] eqn:Eb.
    specialize (Hok s). rewrite Eb in Hok. simpl in Hok. subst r. simpl.
    destruct k as [|[|[|k]]]; [| | |lia].
    + rewrite Hk', Eb. reflexivity.
    + rewrite (Hbefore 0%nat), Hfail by lia. simpl. rewrite Hk', Eb. reflexivity.
    + rewrite (Hbefore 0%nat), Hfail by lia. simpl.
      rewrite (Hbefore 1%nat), Hfail by lia. simpl. rewrite Hk', Eb. reflexivity.
Qed.

Lemma update_once_returns s uid aid p v :
  fst (fst (update_annotation_once true s uid aid p v)) = Returned.
Proof. unfold update_annotation_once. now destruct (fetch_by_annotation_id _ _ _). Qed.

Lemma filter_idem {X} (f : X -> bool) l : List.filter f (List.filter f l) = List.filter f l.
Proof.
  induction l as [|x l IH]; simpl; [reflexivity|].
  destruct (f x) eqn:E; simpl; [rewrite E; now rewrite IH|exact IH].
Qed.

Lemma delete_many_spec s uid m :
  partition (delete_many s uid m) uid = List.filter (fun o => negb (m o)) (partition s uid)
  /\ (forall t, t <> uid -> delete_many s uid m !! t = s !! t)
  /\ delete_many (delete_many s uid m) uid m = delete_many s uid m.
Proof.
  unfold delete_many, partition. destruct (s !! uid) as [l|] eqn:E; simpl.
  - rewrite lookup_insert_eq. simpl. split; [reflexivity|]. split.
    + intros t Ht. now rewrite lookup_insert_ne by congruence.
    + rewrite insert_insert_eq. now rewrite filter_idem.
  - rewrite E. split; [reflexivity|]. split; [intros; reflexivity|].
    rewrite ?E. reflexivity.
Qed.

Lemma filter_negb_then {X} (f : X -> bool) l :
  List.filter f (List.filter (fun o => negb (f o)) l) = [].
Proof.
  induction l as [|x l IH]; simpl; [reflexivity|].
  destruct (f x) eqn:E; simpl; [exact IH|rewrite E; exact IH].
Qed.

Lemma in_filter_negb {X} (f : X -> bool) x l :
  In x (List.filter (fun o => negb (f o)) l) <-> In x l /\ f x = false.
Proof. rewrite filter_In. now rewrite Bool.negb_true_iff. Qed.

Lemma partition_ensure_tenant s uid t : partition (ensure_tenant s uid) t = partition s t.
Proof.
  unfold ensure_tenant, partition. destruct (s !! uid) eqn:E; [reflexivity|].
  destruct (decide (t = uid)) as [->|Hne].
  - now rewrite lookup_insert_eq, E.
  - now rewrite lookup_insert_ne by congruence.
Qed.

(** The three writes of [BookAnnotationStore] under
    [@retry_on_error(max_retries=2)]: when all three attempts fail, the
    method raises with the store unchanged, and the log holds the
    body's error line three times, the wrapper's warning after the first
    two (retrying in 1, then 2 seconds) and its final "Maximum retry
    count (2) reached" error: four errors and two warnings. When attempt
    [k] (at most the third) is the first to reach the store, the method
    returns what that attempt does, after [k] pairs of error and warning
    lines. *)
Theorem annotation_writes_retry store_ok s uid aid bid p v :
  let w1 := Warning "Operation failed, retrying in 1 seconds (1/2)" in
  let w2 := Warning "Operation failed, retrying in 2 seconds (2/2)" in
  let emax := Error "Maximum retry count (2) reached" in
  let eu := Error "Annotation update error" in
  let ed := Error "Annotation deletion error" in
  let eb := Error "Error deleting book annotations from vector DB" in
  ((forall k, (k <= 2)%nat -> store_ok k = false) ->
   update_annotation store_ok s uid aid p v = (Raised, s, [eu; w1; eu; w2; eu; emax])
   /\ delete_annotation store_ok s uid aid = (Raised, s, [ed; w1; ed; w2; ed; emax])
   /\ delete_book_annotations store_ok s uid bid = (Raised, s, [eb; w1; eb; w2; eb; emax]))
  /\ (forall k, (k <= 2)%nat -> (forall j, (j < k)%nat -> store_ok j = false) ->
      store_ok k = true ->
      update_annotation store_ok s uid aid p v
        = (Returned, snd (fst (update_annotation_once true s uid aid p v)),
           firstn (2 * k) [eu; w1; eu; w2] ++ snd (update_annotation_once true s uid aid p v))
      /\ delete_annotation store_ok s uid aid
        = (Returned, snd (fst (delete_annotation_once true s uid aid)),
           firstn (2 * k) [ed; w1; ed; w2] ++ snd (delete_annotation_once true s uid aid))
      /\ delete_book_annotations store_ok s uid bid
        = (Returned, snd (fst (delete_book_annotations_once true s uid bid)),
           firstn (2 * k) [eb; w1; eb; w2]
           ++ snd (delete_book_annotations_once true s uid bid))).
Proof.
  intros w1 w2 emax eu ed eb.
  unfold update_annotation, delete_annotation, delete_book_annotations.
  rewrite update_retry_as_retry_ann.
  destruct (retry_ann_spec (fun ok s => update_annotation_once ok s uid aid p v) store_ok s eu)
    as [U1 U2]; [reflexivity|intros; apply update_once_returns|].
  destruct (retry_ann_spec (fun ok s => delete_annotation_once ok s uid aid) store_ok s ed)
    as [D1 D2]; [reflexivity|reflexivity|].
  destruct (retry_ann_spec (fun ok s => delete_book_annotations_once ok s uid bid) store_ok s eb)
    as [B1 B2]; [reflexivity|reflexivity|].
  split.
  - intros H. rewrite (U1 H), (D1 H), (B1 H). repeat split.
  - intros k Hk Hb Hok. rewrite (U2 k Hk Hb Hok), (D2 k Hk Hb Hok), (B2 k Hk Hb Hok).
    repeat split.
Qed.

(** [delete_annotation] on a reachable store returns normally and logs
    one info line; afterwards the tenant keeps exactly its objects with
    another [annotation_id], in order, other tenants are untouched, and
    deleting again changes nothing. *)
Theorem delete_annotation_effect store_ok s uid aid :
  store_ok 0%nat = true ->
  let '(r, s', logs) := delete_annotation store_ok s uid aid in
  r = Returned
  /\ logs = [Info ("Deleted annotation " ++ aid ++ " for user " ++ uid)%string]
  /\ partition s' uid
     = List.filter (fun o => negb (String.eqb (annotation_id (props o)) aid)) (partition s uid)
  /\ (forall o, In o (partition s' uid) <-> In o (partition s uid) /\ annotation_id (props o) <> aid)
  /\ (forall t, t <> uid -> s' !! t = s !! t)
  /\ delete_annotation store_ok s' uid aid = (Returned, s', logs).
Proof.
  intros Hok. unfold delete_annotation. simpl. unfold delete_annotation_once. rewrite Hok.
  destruct (delete_many_spec s uid (fun o => String.eqb (annotation_id (props o)) aid))
    as (Hp & Hot & Hid).
  split; [reflexivity|]. split; [reflexivity|]. split; [exact Hp|]. split.
  - intros o. rewrite Hp, in_filter_negb. now rewrite String.eqb_neq.
  - split; [exact Hot|]. now rewrite Hid.
Qed.

(** [delete_book_annotations] on a reachable store returns normally and
    logs one info line; afterwards the tenant keeps exactly its objects
    of other books, in order, other tenants are untouched, and deleting
    again changes nothing. *)
Theorem delete_book_annotations_effect store_ok s uid bid :
  store_ok 0%nat = true ->
  let '(r, s', logs) := delete_book_annotations store_ok s uid bid in
  r = Returned
  /\ logs = [Info ("Deleted book annotations from vector DB for book_id: " ++ bid)%string]
  /\ partition s' uid
     = List.filter (fun o => negb (String.eqb (book_id (props o)) bid)) (partition s uid)
  /\ (forall o, In o (partition s' uid) <-> In o (partition s uid) /\ book_id (props o) <> bid)
  /\ (forall t, t <> uid -> s' !! t = s !! t)
  /\ delete_book_annotations store_ok s' uid bid = (Returned, s', logs).
Proof.
  intros Hok. unfold delete_book_annotations. simpl. unfold delete_book_annotations_once.
  rewrite Hok.
  destruct (delete_many_spec s uid (fun o => String.eqb (book_id (props o)) bid))
    as (Hp & Hot & Hid).
  split; [reflexivity|]. split; [reflexivity|]. split; [exact Hp|]. split.
  - intros o. rewrite Hp, in_filter_negb. now rewrite String.eqb_neq.
  - split; [exact Hot|]. now rewrite Hid.
Qed.

(** [search_highlights] creates the tenant when it is missing and
    changes nothing else; it returns at most [limit] results, ranked by
    increasing distance, each an object of the tenant's partition with
    the queried [book_id]. *)
Theorem search_highlights_results dist s uid bid qv limit :
  let '(s', rs) := search_highlights dist s uid bid qv limit in
  s' !! uid <> None
  /\ (forall t, partition s' t = partition s t)
  /\ (forall t, t <> uid -> s' !! t = s !! t)
  /\ (length rs <= limit)%nat
  /\ Sorted Z.le (map ares_distance rs)
  /\ (forall r, In r rs ->
        book_id (ares_props r) = bid
        /\ exists o, In o (partition s uid) /\ uuid o = ares_id r /\ props o = ares_props r).
Proof.
  unfold search_highlights. split; [|split; [|split; [|split; [|split]]]].
  - unfold ensure_tenant. destruct (s !! uid) eqn:E; [congruence|].
    now rewrite lookup_insert_eq.
  - apply partition_ensure_tenant.
  - intros t Ht. unfold ensure_tenant. destruct (s !! uid); [reflexivity|].
    now rewrite lookup_insert_ne by congruence.
  - rewrite length_map, length_firstn. lia.
  - rewrite map_map. simpl. apply StoreExtra.sorted_map, StoreExtra.sorted_firstn,
      StoreExtra.sort_by_sorted.
  - intros r Hr. apply in_map_iff in Hr as (o & <- & Ho). simpl.
    apply ChatStoreProofs.in_firstn, ChatStoreProofs.in_sort_by, filter_In in Ho as [Hin Hb].
    rewrite partition_ensure_tenant in Hin. apply String.eqb_eq in Hb.
    split; [exact Hb|]. exists o. auto.
Qed.

(** Round trip: an annotation added for a tenant is found by a
    highlight search for its book whenever the limit exceeds the number
    of that book's annotations already stored; once the book's
    annotations are deleted, the same search finds nothing. *)
Theorem highlight_add_search_delete dist s uid p v id qv limit store_ok :
  (length (List.filter (fun o => String.eqb (book_id (props o)) (book_id p)) (partition s uid))
     < limit)%nat ->
  store_ok 0%nat = true ->
  let s1 := fst (add_annotation s v p uid id) in
  In id (map ares_id (snd (search_highlights dist s1 uid (book_id p) qv limit)))
  /\ snd (search_highlights dist (snd (fst (delete_book_annotations store_ok s1 uid (book_id p))))
            uid (book_id p) qv limit) = [].
Proof.
  intros Hlen Hok s1.
  assert (Hp1 : partition s1 uid
                = partition s uid ++ [{| uuid := id; vector := v; props := p |}]).
  { unfold s1, add_annotation, partition at 1. simpl. now rewrite lookup_insert_eq. }
  split.
  - unfold search_highlights. simpl. rewrite map_map. simpl.
    apply in_map_iff. exists {| uuid := id; vector := v; props := p |}.
    split; [reflexivity|]. rewrite partition_ensure_tenant, Hp1.
    rewrite firstn_all2.
    + apply ChatStoreProofs.in_sort_by, filter_In. split.
      * apply in_or_app. right. now left.
      * apply String.eqb_refl.
    + rewrite StoreExtra.length_sort_by, List.filter_app, length_app. simpl.
      rewrite String.eqb_refl. simpl. lia.
  - unfold delete_book_annotations. simpl. unfold delete_book_annotations_once. rewrite Hok.
    simpl. unfold search_highlights. simpl. rewrite partition_ensure_tenant.
    destruct (delete_many_spec s1 uid (fun o => String.eqb (book_id (props o)) (book_id p)))
      as (Hp & _ & _).
    rewrite Hp, filter_negb_then. simpl. now destruct limit.
Qed.

Lemma sort_by_nonempty {X} (key : X -> Z) (l : list X) :
  l <> [] -> exists x xs, ChatStore.sort_by key l = x :: xs.
Proof.
  intros H. destruct (ChatStore.sort_by key l) as [|x xs] eqn:E; [|eauto].
  exfalso. apply H. apply (f_equal (@length X)) in E.
  rewrite StoreExtra.length_sort_by in E. now destruct l.
Qed.

Lemma in_search_highlights dist s uid bid qv limit r :
  In r (snd (search_highlights dist s uid bid qv limit)) ->
  exists o, In o (partition s uid) /\ book_id (props o) = bid /\ props o = ares_props r.
Proof.
  unfold search_highlights. simpl. intros Hr. apply in_map_iff in Hr as (o & <- & Ho).
  apply ChatStoreProofs.in_firstn, ChatStoreProofs.in_sort_by, filter_In in Ho as [Hin Hb].
  rewrite partition_ensure_tenant in Hin. apply String.eqb_eq in Hb. exists o. auto.
Qed.

(** [HighlightSearcher.search_relevant_highlights] never returns an
    empty list: with an empty user or book id it answers "No highlights
    found" without any store call; otherwise a failing [encode_text]
    propagates (it is called outside the [try]), and a failing search
    gives "Search error occurred". *)
Theorem highlight_search_outcomes encode search question uid bid limit :
  search_relevant_highlights encode search question uid bid limit <> Some []
  /\ (uid = ""%string \/ bid = ""%string ->
      search_relevant_highlights encode search question uid bid limit
      = Some ["No highlights found"%string])
  /\ (uid <> ""%string -> bid <> ""%string -> encode question = None ->
      search_relevant_highlights encode search question uid bid limit = None)
  /\ (forall qv, uid <> ""%string -> bid <> ""%string -> encode question = Some qv ->
      search uid bid qv limit = None ->
      search_relevant_highlights encode search question uid bid limit
      = Some ["Search error occurred"%string]).
Proof.
  unfold search_relevant_highlights. split; [|split; [|split]].
  - destruct (_ || _); [discriminate|].
    destruct (encode question) as [qv|]; [|discriminate].
    destruct (search uid bid qv limit) as [[|h hs]|]; discriminate.
  - intros [->| ->]; [reflexivity|]. now rewrite orb_true_r.
  - intros Hu Hb He. apply String.eqb_neq in Hu, Hb. now rewrite Hu, Hb, He.
  - intros qv Hu Hb He Hs. apply String.eqb_neq in Hu, Hb. now rewrite Hu, Hb, He, Hs.
Qed.

(** With non-empty ids and a working encoder, the highlight lines come
    from the tenant's annotations of the book: "No highlights found"
    when the limit is 0 or the tenant has no annotation of the book;
    otherwise at most [limit] lines, each "[Highlight]" followed by the
    content of such an annotation (and its notes, if any), and at least
    one line when the limit is positive and the book has an
    annotation. *)
Theorem highlight_search_lines dist s encode question uid bid limit qv :
  uid <> ""%string -> bid <> ""%string -> encode question = Some qv ->
  let res := search_relevant_highlights encode (highlight_store_search dist s)
               question uid bid limit in
  ((limit = 0%nat \/ forall o, In o (partition s uid) -> book_id (props o) <> bid) ->
   res = Some ["No highlights found"%string])
  /\ (forall lines, res = Some lines ->
      lines = ["No highlights found"%string]
      \/ ((length lines <= limit)%nat
          /\ forall l, In l lines -> exists o rest, In o (partition s uid) /\ book_id (props o) = bid
                       /\ l = ("[Highlight]" ++ content (props o) ++ rest)%string))
  /\ ((1 <= limit)%nat -> (exists o, In o (partition s uid) /\ book_id (props o) = bid) ->
      exists l lines, res = Some (l :: lines)
      /\ exists o rest, In o (partition s uid) /\ book_id (props o) = bid
                       /\ l = ("[Highlight]" ++ content (props o) ++ rest)%string).
Proof.
  intros Hu Hb He res. unfold res, search_relevant_highlights, highlight_store_search.
  apply String.eqb_neq in Hu, Hb. rewrite Hu, Hb, He. cbn [orb].
  assert (Hin := in_search_highlights dist s uid bid qv limit).
  assert (Hlen : (length (snd (search_highlights dist s uid bid qv limit)) <= limit)%nat).
  { unfold search_highlights. simpl. rewrite length_map, length_firstn. lia. }
  assert (Hfmt : forall r, In r (snd (search_highlights dist s uid bid qv limit)) ->
            exists o rest, In o (partition s uid) /\ book_id (props o) = bid
            /\ format_highlight (ares_props r) = ("[Highlight]" ++ content (props o) ++ rest)%string).
  { intros r Hr. destruct (Hin r Hr) as (o & Ho & Hbo & Hp).
    exists o, (match notes (props o) with
               | Some n => if String.eqb n "" then "" else PromptBuilder.nl ++ n
               | None => "" end)%string.
    split; [exact Ho|]. split; [exact Hbo|]. unfold format_highlight. now rewrite Hp. }
  split; [|split].
  - intros Hnone.
    replace (snd (search_highlights dist s uid bid qv limit)) with (@nil ann_result);
      [reflexivity|].
    unfold search_highlights. simpl. destruct Hnone as [->|Hnone]; [reflexivity|].
    rewrite partition_ensure_tenant.
    rewrite (VectorizeProofs.filter_all_false_list _ (partition s uid));
      [simpl; now destruct limit|].
    intros o Ho. apply String.eqb_neq, Hnone, Ho.
  - intros lines Hl. destruct (snd (search_highlights dist s uid bid qv limit)) as [|r rs] eqn:E.
    + left. congruence.
    + right. injection Hl as <-. split; [simpl in *; rewrite length_map; lia|].
      intros l Hl.
      assert (Hl' : In l (map (fun h => format_highlight (ares_props h)) (r :: rs))) by exact Hl.
      apply in_map_iff in Hl' as (r' & <- & Hr').
      apply Hfmt. exact Hr'.
  - intros Hlim (o & Ho & Hbo).
    destruct (snd (search_highlights dist s uid bid qv limit)) as [|r rs] eqn:E.
    + exfalso. revert E. unfold search_highlights. simpl. rewrite partition_ensure_tenant.
      destruct limit as [|limit]; [lia|].
      destruct (sort_by_nonempty (fun o => dist (vector o) qv)
                  (List.filter (fun o => String.eqb (book_id (props o)) bid) (partition s uid)))
        as (x & xs & Ex).
      { intros Hnil. assert (Hf : In o (List.filter (fun o => String.eqb (book_id (props o)) bid)
                                          (partition s uid)))
          by (apply filter_In; split; [exact Ho|now apply String.eqb_eq]).
        rewrite Hnil in Hf. destruct Hf. }
      rewrite Ex. discriminate.
    + exists (format_highlight (ares_props r)), (map (fun h => format_highlight (ares_props h)) rs).
      split; [reflexivity|]. apply Hfmt. now left.
Qed.

(** Witness: every attempt fails; then only the second attempt reaches
    the store. *)
Lemma annotation_writes_retry_witness :
  let s := AnnotationStoreProofs.sample_store in
  let p := AnnotationStoreProofs.sample_ann "a1" in
  let w1 := Warning "Operation failed, retrying in 1 seconds (1/2)" in
  let w2 := Warning "Operation failed, retrying in 2 seconds (2/2)" in
  let emax := Error "Maximum retry count (2) reached" in
  let eu := Error "Annotation update error" in
  let ed := Error "Annotation deletion error" in
  let eb := Error "Error deleting book annotations from vector DB" in
  (update_annotation (fun _ => false) s "alice" "a1" p [2] = (Raised, s, [eu; w1; eu; w2; eu; emax])
   /\ delete_annotation (fun _ => false) s "alice" "a1" = (Raised, s, [ed; w1; ed; w2; ed; emax])
   /\ delete_book_annotations (fun _ => false) s "alice" "b1"
      = (Raised, s, [eb; w1; eb; w2; eb; emax]))
  /\ (update_annotation (fun k => Nat.eqb k 1) s "alice" "a1" p [2]
        = (Returned, snd (fst (update_annotation_once true s "alice" "a1" p [2])),
           firstn (2 * 1) [eu; w1; eu; w2] ++ snd (update_annotation_once true s "alice" "a1" p [2]))
      /\ delete_annotation (fun k => Nat.eqb k 1) s "alice" "a1"
        = (Returned, snd (fst (delete_annotation_once true s "alice" "a1")),
           firstn (2 * 1) [ed; w1; ed; w2] ++ snd (delete_annotation_once true s "alice" "a1"))
      /\ delete_book_annotations (fun k => Nat.eqb k 1) s "alice" "b1"
        = (Returned, snd (fst (delete_book_annotations_once true s "alice" "b1")),
           firstn (2 * 1) [eb; w1; eb; w2]
           ++ snd (delete_book_annotations_once true s "alice" "b1"))).
Proof.
  intros s p w1 w2 emax eu ed eb. split.
  - apply (proj1 (annotation_writes_retry (fun _ => false) s "alice" "a1" "b1" p [2])).
    intros k _. reflexivity.
  - apply (proj2 (annotation_writes_retry (fun k => Nat.eqb k 1) s "alice" "a1" "b1" p [2]) 1%nat).
    + lia.
    + intros j Hj. destruct j; [reflexivity|lia].
    + reflexivity.
Defined.

(** Witness: deleting annotation "a1" of tenant "alice". *)
Lemma delete_annotation_effect_witness :
  let '(r, s', logs) := delete_annotation (fun _ => true) AnnotationStoreProofs.sample_store
                          "alice" "a1" in
  r = Returned
  /\ logs = [Info ("Deleted annotation " ++ "a1" ++ " for user " ++ "alice")%string]
  /\ partition s' "alice"
     = List.filter (fun o => negb (String.eqb (annotation_id (props o)) "a1"))
         (partition AnnotationStoreProofs.sample_store "alice")
  /\ (forall o, In o (partition s' "alice") <->
                In o (partition AnnotationStoreProofs.sample_store "alice")
                /\ annotation_id (props o) <> "a1"%string)
  /\ (forall t, t <> "alice"%string -> s' !! t = AnnotationStoreProofs.sample_store !! t)
  /\ delete_annotation (fun _ => true) s' "alice" "a1" = (Returned, s', logs).
Proof. apply delete_annotation_effect. reflexivity. Defined.

(** Witness: deleting book "b1" of tenant "alice". *)
Lemma delete_book_annotations_effect_witness :
  let '(r, s', logs) := delete_book_annotations (fun _ => true)
                          AnnotationStoreProofs.sample_store "alice" "b1" in
  r = Returned
  /\ logs = [Info ("Deleted book annotations from vector DB for book_id: " ++ "b1")%string]
  /\ partition s' "alice"
     = List.filter (fun o => negb (String.eqb (book_id (props o)) "b1"))
         (partition AnnotationStoreProofs.sample_store "alice")
  /\ (forall o, In o (partition s' "alice") <->
                In o (partition AnnotationStoreProofs.sample_store "alice")
                /\ book_id (props o) <> "b1"%string)
  /\ (forall t, t <> "alice"%string -> s' !! t = AnnotationStoreProofs.sample_store !! t)
  /\ delete_book_annotations (fun _ => true) s' "alice" "b1" = (Returned, s', logs).
Proof. apply delete_book_annotations_effect. reflexivity. Defined.

(** Witness: tenant "alice" holds one annotation of book "b1"; a second
    one is added with uuid 1 and searched with limit 2. *)
Lemma highlight_add_search_delete_witness :
  let dist := fun v q : list Z => Z.abs (hd 0 v - hd 0 q) in
  let p := AnnotationStoreProofs.sample_ann "a2" in
  let s1 := fst (add_annotation AnnotationStoreProofs.sample_store [3] p "alice" 1) in
  In 1%nat (map ares_id (snd (search_highlights dist s1 "alice" (book_id p) [0] 2)))
  /\ snd (search_highlights dist (snd (fst (delete_book_annotations (fun _ => true) s1 "alice"
                                             (book_id p)))) "alice" (book_id p) [0] 2) = [].
Proof.
  intros dist p s1.
  apply (highlight_add_search_delete dist AnnotationStoreProofs.sample_store "alice" p [3] 1 [0] 2
           (fun _ => true)).
  - vm_compute. lia.
  - reflexivity.
Defined.

(** Witness: empty ids, a failing encoder, a failing search. *)
Lemma highlight_search_outcomes_witness :
  search_relevant_highlights (fun _ => Some [0]) (fun _ _ _ _ => Some []) "q" "alice" "b1" 3
    <> Some []
  /\ search_relevant_highlights (fun _ => None) (fun _ _ _ _ => None) "q" "" "b1" 3
     = Some ["No highlights found"%string]
  /\ search_relevant_highlights (fun _ => None) (fun _ _ _ _ => None) "q" "alice" "b1" 3 = None
  /\ search_relevant_highlights (fun _ => Some [0]) (fun _ _ _ _ => None) "q" "alice" "b1" 3
     = Some ["Search error occurred"%string].
Proof.
  refine (conj _ (conj _ (conj _ _))).
  - apply (highlight_search_outcomes (fun _ => Some [0]) (fun _ _ _ _ => Some []) "q" "alice" "b1" 3).
  - apply (proj1 (proj2 (highlight_search_outcomes (fun _ => None) (fun _ _ _ _ => None)
                           "q" "" "b1" 3))). now left.
  - apply (proj1 (proj2 (proj2 (highlight_search_outcomes (fun _ => None) (fun _ _ _ _ => None)
                                  "q" "alice" "b1" 3)))); [discriminate|discriminate|reflexivity].
  - apply (proj2 (proj2 (proj2 (highlight_search_outcomes (fun _ => Some [0])
                                  (fun _ _ _ _ => None) "q" "alice" "b1" 3))) [0]);
      [discriminate|discriminate|reflexivity|reflexivity].
Defined.

(** Witness: tenant "alice" with one annotation of book "b1". *)
Lemma highlight_search_lines_witness :
  let res := search_relevant_highlights (fun _ => Some [0])
               (highlight_store_search (fun _ _ => 0) AnnotationStoreProofs.sample_store)
               "q" "alice" "b1" 3 in
  ((3%nat = 0%nat \/ forall o, In o (partition AnnotationStoreProofs.sample_store "alice") ->
                              book_id (props o) <> "b1"%string) ->
   res = Some ["No highlights found"%string])
  /\ (forall lines, res = Some lines ->
      lines = ["No highlights found"%string]
      \/ ((length lines <= 3)%nat
          /\ forall l, In l lines -> exists o rest,
               In o (partition AnnotationStoreProofs.sample_store "alice")
               /\ book_id (props o) = "b1"%string
               /\ l = ("[Highlight]" ++ content (props o) ++ rest)%string))
  /\ ((1 <= 3)%nat -> (exists o, In o (partition AnnotationStoreProofs.sample_store "alice")
                                /\ book_id (props o) = "b1"%string) ->
      exists l lines, res = Some (l :: lines)
      /\ exists o rest, In o (partition AnnotationStoreProofs.sample_store "alice")
                       /\ book_id (props o) = "b1"%string
                       /\ l = ("[Highlight]" ++ content (props o) ++ rest)%string).
Proof.
  apply (highlight_search_lines (fun _ _ => 0) AnnotationStoreProofs.sample_store
           (fun _ => Some [0]) "q" "alice" "b1" 3 [0]); [discriminate|discriminate|reflexivity].
Defined.
End AnnotationOpsProofs.
